(** * WebXR target-shooting game: session controller and arena simulation

    A shallow embedding of [src/game/GameManager.js] (the session
    controller: state machine, score, countdown, high scores) and of the
    frame loop of the main module ([initializeTargets], [updateBullets],
    [updateTargets], [onFrame]), with the texts and buttons of the panels of
    the UI module ([GameHUD], [ResultScreen], [MenuUI]).

    Conventions of the embedding
    - JavaScript numbers are idealised: scores and level indices are
      integers ([Z]), times, speeds and coordinates are exact rationals
      ([Q]); rounding of IEEE doubles is not modelled.
    - [a[i]] on a JavaScript array is [item a i]: [None] stands for
      [undefined].  Reading a property of [undefined] throws a TypeError,
      which is the failure [None] of the monad [M].
    - The observer fields [onStateChange], [onScoreChange], [onTimeChange]
      and [onSettingsChange] are modelled by the list of notifications a
      method emits, in the order the callbacks are invoked.  A call of
      [saveSettings] is the notification [Saved], with the values it
      tries to write; whether [localStorage] takes them is not modelled.
    - [Math.random()] is a stream [random : nat -> Q] read through a cursor
      kept in the world; [THREE.Vector3.normalize] is a parameter. *)

From Stdlib Require Import ZArith QArith Qround List String Ascii DecimalString Bool Lia Lqa.
Import ListNotations.

Open Scope Z_scope.

(** ** Data model of GameManager.js *)

Inductive GameState : Type :=
| MENU
| PLAYING
| LEVEL_COMPLETE
| GAME_OVER.

Definition GameState_eqb (a b : GameState) : bool :=
  match a, b with
  | MENU, MENU | PLAYING, PLAYING
  | LEVEL_COMPLETE, LEVEL_COMPLETE | GAME_OVER, GAME_OVER => true
  | _, _ => false
  end.

Record LevelConfig : Type := mkLevel {
  id : Z;
  name : string;
  description : string;
  targetCount : nat;
  targetSpeed : Q;
  scoreToComplete : Z;
  timeLimit : Q;
  movingTargets : bool
}.

Definition LEVELS : list LevelConfig :=
  [ mkLevel 1 "Beginner" "Learn the basics" 3 0 30 60 false;
    mkLevel 2 "Intermediate" "More targets" 5 0 80 60 false;
    mkLevel 3 "Advanced" "Faster respawn" 5 0 150 45 false;
    mkLevel 4 "Expert" "Moving targets" 5 (3 # 2) 200 60 true;
    mkLevel 5 "Master" "Ultimate challenge" 7 (5 # 2) 300 90 true ].

Definition LEVELS_length : Z := Z.of_nat (List.length LEVELS).

Record Settings : Type := mkSettings {
  leftHandedMode : bool;
  musicVolume : Q;
  sfxVolume : Q
}.

Definition DEFAULT_SETTINGS : Settings := mkSettings false (1 # 2) 1.

Record GameManager : Type := mkGameManager {
  state : GameState;
  currentLevel : Z;
  score : Z;
  timeRemaining : Q;
  settings : Settings;
  highScores : list Z
}.

Definition set_state (v : GameState) (g : GameManager) : GameManager :=
  mkGameManager v (currentLevel g) (score g) (timeRemaining g) (settings g) (highScores g).
Definition set_currentLevel (v : Z) (g : GameManager) : GameManager :=
  mkGameManager (state g) v (score g) (timeRemaining g) (settings g) (highScores g).
Definition set_score (v : Z) (g : GameManager) : GameManager :=
  mkGameManager (state g) (currentLevel g) v (timeRemaining g) (settings g) (highScores g).
Definition set_timeRemaining (v : Q) (g : GameManager) : GameManager :=
  mkGameManager (state g) (currentLevel g) (score g) v (settings g) (highScores g).
Definition set_settings (v : Settings) (g : GameManager) : GameManager :=
  mkGameManager (state g) (currentLevel g) (score g) (timeRemaining g) v (highScores g).
Definition set_highScores (v : list Z) (g : GameManager) : GameManager :=
  mkGameManager (state g) (currentLevel g) (score g) (timeRemaining g) (settings g) v.

(** Invocations of the observer callbacks and of [saveSettings]. *)
Inductive Event : Type :=
| StateChanged (newState : GameState)
| ScoreChanged (newScore : Z)
| TimeChanged (time : Q)
| SettingsChanged (s : Settings)
| Saved (s : Settings) (scores : list Z).

(** ** JavaScript arrays *)

(** [a[i]]: [undefined] outside [0 .. length). *)
Definition item {A : Type} (a : list A) (i : Z) : option A :=
  if i <? 0 then None else nth_error a (Z.to_nat i).

Fixpoint replace_nth {A : Type} (a : list A) (n : nat) (v : A) : list A :=
  match a, n with
  | [], _ => []
  | _ :: tl, O => v :: tl
  | hd :: tl, S m => hd :: replace_nth tl m v
  end.

(** [a[i] = v] for an index that already holds an element. *)
Definition setItem {A : Type} (a : list A) (i : Z) (v : A) : list A :=
  if i <? 0 then a else replace_nth a (Z.to_nat i) v.

(** [x < y] on numbers. *)
Definition Qlt_bool (x y : Q) : bool := negb (Qle_bool y x).

(** ** A state, notification and failure monad

    [M S A]: a method running on a mutable object of type [S]; it either
    throws ([None]) or returns a value, the mutated object and the
    notifications it sent. *)

Definition M (S A : Type) : Type := S -> option (A * S * list Event).

Definition ret {S A : Type} (a : A) : M S A := fun s => Some (a, s, []).

Definition bind {S A B : Type} (m : M S A) (k : A -> M S B) : M S B :=
  fun s =>
    match m s with
    | None => None
    | Some (a, s1, e1) =>
        match k a s1 with
        | None => None
        | Some (b, s2, e2) => Some (b, s2, e1 ++ e2)
        end
    end.

Definition get {S : Type} : M S S := fun s => Some (s, s, []).
Definition modify {S : Type} (f : S -> S) : M S unit := fun s => Some (tt, f s, []).
Definition emit {S : Type} (e : Event) : M S unit := fun s => Some (tt, s, [e]).
Definition throw {S A : Type} : M S A := fun _ => None.

(** Property access on a possibly [undefined] value. *)
Definition defined {S A : Type} (o : option A) : M S A :=
  match o with
  | Some a => ret a
  | None => throw
  end.

Declare Scope js_scope.
Delimit Scope js_scope with js.
Notation "x <- m ;; k" := (bind m (fun x => k))
  (at level 61, m at next level, right associativity) : js_scope.
Notation "m ;; k" := (bind m (fun _ => k))
  (at level 61, right associativity) : js_scope.
Open Scope js_scope.

(** The object after a run, when the method returns. *)
Definition exec {S A : Type} (m : M S A) (s : S) : option S :=
  match m s with
  | Some (_, s', _) => Some s'
  | None => None
  end.

(** The notifications of a run. *)
Definition events {S A : Type} (m : M S A) (s : S) : list Event :=
  match m s with
  | Some (_, _, e) => e
  | None => []
  end.

(** ** GameManager methods *)

(** Outcome of reading one [localStorage] key and parsing it. *)
Inductive Stored (A : Type) : Type :=
| Absent
| Corrupt
| Parsed (v : A).
Arguments Absent {A}.
Arguments Corrupt {A}.
Arguments Parsed {A} v.

(** [loadSettings]: a parse error anywhere leaves the [try] block. *)
Definition loadSettings (saved : Stored Settings) (scores : Stored (list Z))
    (g : GameManager) : GameManager :=
  match saved with
  | Corrupt => g
  | Absent =>
      match scores with
      | Parsed hs => set_highScores hs g
      | _ => g
      end
  | Parsed s =>
      match scores with
      | Parsed hs => set_highScores hs (set_settings s g)
      | _ => set_settings s g
      end
  end.

(** [new GameManager()]. *)
Definition newGameManager (saved : Stored Settings) (scores : Stored (list Z)) : GameManager :=
  loadSettings saved scores
    (mkGameManager MENU 0 0 0 DEFAULT_SETTINGS [0; 0; 0; 0; 0]).

Definition saveSettings : M GameManager unit :=
  g <- get ;;
  emit (Saved (settings g) (highScores g)).

Inductive Setting : Type :=
| SetLeftHandedMode (v : bool)
| SetMusicVolume (v : Q)
| SetSfxVolume (v : Q).

Definition assignSetting (kv : Setting) (s : Settings) : Settings :=
  match kv with
  | SetLeftHandedMode v => mkSettings v (musicVolume s) (sfxVolume s)
  | SetMusicVolume v => mkSettings (leftHandedMode s) v (sfxVolume s)
  | SetSfxVolume v => mkSettings (leftHandedMode s) (musicVolume s) v
  end.

Definition setSetting (kv : Setting) : M GameManager unit :=
  modify (fun g => set_settings (assignSetting kv (settings g)) g) ;;
  saveSettings ;;
  g <- get ;;
  emit (SettingsChanged (settings g)).

Definition toggleLeftHandedMode : M GameManager bool :=
  g <- get ;;
  setSetting (SetLeftHandedMode (negb (leftHandedMode (settings g)))) ;;
  g <- get ;;
  ret (leftHandedMode (settings g)).

Definition getCurrentLevelConfig (g : GameManager) : option LevelConfig :=
  if (currentLevel g <? 0) || (currentLevel g >=? LEVELS_length)
  then item LEVELS 0
  else item LEVELS (currentLevel g).

Definition setState (newState : GameState) : M GameManager unit :=
  modify (set_state newState) ;;
  emit (StateChanged newState).

Definition startLevel (levelIndex : Z) : M GameManager unit :=
  let levelIndex :=
    if (levelIndex <? 0) || (levelIndex >=? LEVELS_length) then 0 else levelIndex in
  modify (set_currentLevel levelIndex) ;;
  modify (set_score 0) ;;
  g <- get ;;
  levelConfig <- defined (getCurrentLevelConfig g) ;;
  modify (set_timeRemaining (timeLimit levelConfig)) ;;
  setState PLAYING ;;
  g <- get ;;
  emit (ScoreChanged (score g)).

Definition completeLevel : M GameManager unit :=
  g <- get ;;
  match item (highScores g) (currentLevel g) with
  | Some best =>
      if score g >? best
      then modify (set_highScores (setItem (highScores g) (currentLevel g) (score g))) ;;
           saveSettings
      else ret tt
  | None => ret tt (* [score > undefined] is false *)
  end ;;
  setState LEVEL_COMPLETE.

Definition addScore (points : Z) : M GameManager unit :=
  modify (fun g => set_score (score g + points) g) ;;
  g <- get ;;
  emit (ScoreChanged (score g)) ;;
  levelConfig <- defined (getCurrentLevelConfig g) ;;
  if score g >=? scoreToComplete levelConfig
  then completeLevel
  else ret tt.

Definition gameOver : M GameManager unit := setState GAME_OVER.

Definition updateTime (delta : Q) : M GameManager unit :=
  g <- get ;;
  if negb (GameState_eqb (state g) PLAYING) then ret tt
  else
    modify (fun g => set_timeRemaining (timeRemaining g - delta)%Q g) ;;
    g <- get ;;
    emit (TimeChanged (timeRemaining g)) ;;
    if Qle_bool (timeRemaining g) 0
    then modify (set_timeRemaining 0%Q) ;; gameOver
    else ret tt.

Definition goToMenu : M GameManager unit := setState MENU.

Definition nextLevel : M GameManager unit :=
  g <- get ;;
  if currentLevel g <? LEVELS_length - 1
  then startLevel (currentLevel g + 1)
  else goToMenu.

Definition restartLevel : M GameManager unit :=
  g <- get ;;
  startLevel (currentLevel g).

Definition isLeftHanded (g : GameManager) : bool := leftHandedMode (settings g).

Inductive Hand : Type := HandLeft | HandRight.

Definition getBlasterHand (g : GameManager) : Hand :=
  if leftHandedMode (settings g) then HandLeft else HandRight.

(** The mutating methods of the controller, as one command type. *)
Inductive Op : Type :=
| OpStartLevel (levelIndex : Z)
| OpAddScore (points : Z)
| OpUpdateTime (delta : Q)
| OpNextLevel
| OpGoToMenu
| OpRestartLevel
| OpSetSetting (kv : Setting)
| OpToggleLeftHandedMode.

Definition runOp (o : Op) : M GameManager unit :=
  match o with
  | OpStartLevel i => startLevel i
  | OpAddScore p => addScore p
  | OpUpdateTime d => updateTime d
  | OpNextLevel => nextLevel
  | OpGoToMenu => goToMenu
  | OpRestartLevel => restartLevel
  | OpSetSetting kv => setSetting kv
  | OpToggleLeftHandedMode => toggleLeftHandedMode ;; ret tt
  end.

Fixpoint runOps (os : list Op) : M GameManager unit :=
  match os with
  | [] => ret tt
  | o :: rest => runOp o ;; runOps rest
  end.

(** ** The arena: targets and bullets of the main module *)

Record Vector3 : Type := mkVector3 { x : Q; y : Q; z : Q }.

Definition multiplyScalar (v : Vector3) (k : Q) : Vector3 :=
  mkVector3 (x v * k)%Q (y v * k)%Q (z v * k)%Q.

Definition add (v d : Vector3) : Vector3 :=
  mkVector3 (x v + x d)%Q (y v + y d)%Q (z v + z d)%Q.

(** [a.distanceTo(b)] is the square root of this; [distanceTo < 1] is
    decided on the square. *)
Definition distanceToSquared (a b : Vector3) : Q :=
  ((x a - x b) * (x a - x b) + (y a - y b) * (y a - y b)
   + (z a - z b) * (z a - z b))%Q.

(** A target mesh.  [shrinkTweens] counts the [gsap.to(target.scale, ...)]
    hit animations started on it; running the tweens and the respawn timer
    belongs to [gsap] and [setTimeout] and is not modelled. *)
Record Target : Type := mkTarget {
  position : Vector3;
  visible : bool;
  scale : Vector3;
  moveDirection : Vector3;
  moveSpeed : Q;
  isMoving : bool;
  shrinkTweens : nat
}.

Record Bullet : Type := mkBullet {
  uuid : string;
  bulletPosition : Vector3;
  velocity : Vector3;
  timeToLive : Q
}.

Definition bulletSpeed : Q := 10.
Definition bulletTimeToLive : Q := 1.

(** Module state: the singleton [gameManager], the [bullets] object (keys
    in insertion order), the [targets] pool, whether [targetModel] has been
    loaded, and the position in the [Math.random()] stream. *)
Record World : Type := mkWorld {
  gm : GameManager;
  bullets : list Bullet;
  targets : list Target;
  targetModel : bool;
  randomCursor : nat
}.

Definition set_gm (v : GameManager) (w : World) : World :=
  mkWorld v (bullets w) (targets w) (targetModel w) (randomCursor w).
Definition set_bullets (v : list Bullet) (w : World) : World :=
  mkWorld (gm w) v (targets w) (targetModel w) (randomCursor w).
Definition set_targets (v : list Target) (w : World) : World :=
  mkWorld (gm w) (bullets w) v (targetModel w) (randomCursor w).
Definition set_randomCursor (v : nat) (w : World) : World :=
  mkWorld (gm w) (bullets w) (targets w) (targetModel w) v.

Definition set_visible (v : bool) (t : Target) : Target :=
  mkTarget (position t) v (scale t) (moveDirection t) (moveSpeed t) (isMoving t)
    (shrinkTweens t).

(** [delete bullets[key]]. *)
Definition deleteBullet (key : string) (bs : list Bullet) : list Bullet :=
  filter (fun b => negb (String.eqb (uuid b) key)) bs.

(** Field updates on a bullet object that the [bullets] object refers to. *)
Definition mutateBullet (b' : Bullet) (bs : list Bullet) : list Bullet :=
  map (fun b => if String.eqb (uuid b) (uuid b') then b' else b) bs.

(** [bullets[b.uuid] = b]. *)
Definition storeBullet (b : Bullet) (bs : list Bullet) : list Bullet :=
  if existsb (fun c => String.eqb (uuid c) (uuid b)) bs
  then mutateBullet b bs
  else bs ++ [b].

(** [list.forEach(f)]. *)
Fixpoint forEach {S A : Type} (l : list A) (f : A -> M S unit) : M S unit :=
  match l with
  | [] => ret tt
  | a :: rest => f a ;; forEach rest f
  end.

(** Pairs every element with its index in the array. *)
Fixpoint enumerate {A : Type} (i : nat) (l : list A) : list (nat * A) :=
  match l with
  | [] => []
  | a :: rest => (i, a) :: enumerate (S i) rest
  end.

(** A resolved click on a menu or result-screen button. *)
Inductive Click : Type :=
| ClickLevel (index : Z)
| ClickToggleLeftHanded
| ClickNextLevel
| ClickMenu
| ClickRetry.

(** A trigger press with a bullet prototype: the new mesh's uuid, world
    position and unit forward direction. *)
Record Shot : Type := mkShot {
  shotUuid : string;
  shotPosition : Vector3;
  shotDirection : Vector3
}.

Section Arena.

Variable random : nat -> Q.
Variable normalize : Vector3 -> Vector3.

(** The assignments of one iteration of the loop of [initializeTargets] to
    [target]; five numbers are drawn, starting at [c]. *)
Definition activate (levelConfig : LevelConfig) (c : nat) (target : Target) : Target :=
  mkTarget
    (mkVector3 (random c * 10 - 5)%Q
               (random (c + 1) * 2 + 1)%Q
               (- random (c + 2) * 5 - 5)%Q)
    true
    (mkVector3 1 1 1)
    (normalize (mkVector3 (random (c + 3) - (1 # 2))%Q
                          (random (c + 4) - (1 # 2))%Q
                          0))
    (targetSpeed levelConfig)
    (movingTargets levelConfig)
    (shrinkTweens target).

(** [targetModel.clone()]; every field but the tween count is overwritten
    by [activate]. *)
Definition clone : Target :=
  mkTarget (mkVector3 0 0 0) true (mkVector3 1 1 1) (mkVector3 0 0 0) 0 false 0.

Definition initializeTargets_body (levelConfig : LevelConfig) (i : nat) (w : World) : World :=
  if (i <? List.length (targets w))%nat then
    match nth_error (targets w) i with
    | Some target =>
        set_randomCursor (randomCursor w + 5)
          (set_targets
             (replace_nth (targets w) i (activate levelConfig (randomCursor w) target)) w)
    | None => w
    end
  else if targetModel w then
    set_randomCursor (randomCursor w + 5)
      (set_targets (targets w ++ [activate levelConfig (randomCursor w) clone]) w)
  else w.

(** [for (let i = start; i < start + n; i++) body]. *)
Fixpoint initializeTargets_loop (n : nat) (levelConfig : LevelConfig) (i : nat)
    (w : World) : World :=
  match n with
  | O => w
  | S n' =>
      initializeTargets_loop n' levelConfig (S i) (initializeTargets_body levelConfig i w)
  end.

Definition hideTargets (w : World) : World :=
  set_targets (map (set_visible false) (targets w)) w.

Definition initializeTargets (levelConfig : LevelConfig) (w : World) : World :=
  initializeTargets_loop (targetCount levelConfig) levelConfig 0 (hideTargets w).

Definition clearBullets (w : World) : World := set_bullets [] w.

(** [onGameStateChange]; the panels it shows and hides are not modelled. *)
Definition onGameStateChange (newState : GameState) : M World unit :=
  match newState with
  | MENU => modify (fun w => hideTargets (clearBullets w))
  | PLAYING =>
      w <- get ;;
      levelConfig <- defined (getCurrentLevelConfig (gm w)) ;;
      modify (initializeTargets levelConfig)
  | LEVEL_COMPLETE =>
      w <- get ;;
      _ <- defined (getCurrentLevelConfig (gm w)) ;;
      ret tt
  | GAME_OVER =>
      w <- get ;;
      _ <- defined (getCurrentLevelConfig (gm w)) ;;
      ret tt
  end.

(** The observers [setupScene] installs on [gameManager]. *)
Definition observe (e : Event) : M World unit :=
  match e with
  | StateChanged newState => onGameStateChange newState
  | _ => ret tt
  end.

(** A [gameManager] method called from the main module.  The observers act
    on the arena only and read of [gameManager] nothing that the method
    changes after notifying them, so they are run on the method's result. *)
Definition onManager {A : Type} (m : M GameManager A) : M World A :=
  fun w =>
    match m (gm w) with
    | None => None
    | Some (a, g', evs) =>
        match forEach evs observe (set_gm g' w) with
        | None => None
        | Some (_, w', _) => Some (a, w', evs)
        end
    end.

Definition handleUIInteraction (click : option Click) : M World unit :=
  match click with
  | None => ret tt
  | Some (ClickLevel index) => onManager (startLevel index)
  | Some ClickToggleLeftHanded => onManager toggleLeftHandedMode ;; ret tt
  | Some ClickNextLevel => onManager nextLevel
  | Some ClickMenu => onManager goToMenu
  | Some ClickRetry => onManager restartLevel
  end.

Definition handleBlasterInput (fire : option Shot) : M World unit :=
  w <- get ;;
  if negb (GameState_eqb (state (gm w)) PLAYING) then ret tt
  else
    match fire with
    | None => ret tt
    | Some s =>
        modify (fun w =>
          set_bullets
            (storeBullet
               (mkBullet (shotUuid s) (shotPosition s)
                  (multiplyScalar (shotDirection s) bulletSpeed) bulletTimeToLive)
               (bullets w)) w)
    end.

(** The body of the inner [forEach] of [updateBullets], for the target at
    index [i] of the pool. *)
Definition hitTest (bullet : Bullet) (it : nat * Target) : M World unit :=
  let (i, target) := it in
  if Qlt_bool (distanceToSquared (position target) (bulletPosition bullet)) 1
  then
    modify (fun w => set_bullets (deleteBullet (uuid bullet) (bullets w)) w) ;;
    modify (fun w =>
      set_targets
        (match nth_error (targets w) i with
         | Some t =>
             replace_nth (targets w) i
               (mkTarget (position t) (visible t) (scale t) (moveDirection t)
                  (moveSpeed t) (isMoving t) (S (shrinkTweens t)))
         | None => targets w
         end) w) ;;
    onManager (addScore 10)
  else ret tt.

(** The body of the outer [forEach] of [updateBullets]. *)
Definition updateBullet (delta : Q) (bullet : Bullet) : M World unit :=
  if Qlt_bool (timeToLive bullet) 0
  then modify (fun w => set_bullets (deleteBullet (uuid bullet) (bullets w)) w)
  else
    let deltaVec := multiplyScalar (velocity bullet) delta in
    let bullet' :=
      mkBullet (uuid bullet) (add (bulletPosition bullet) deltaVec) (velocity bullet)
        (timeToLive bullet - delta)%Q in
    modify (fun w => set_bullets (mutateBullet bullet' (bullets w)) w) ;;
    w <- get ;;
    forEach (filter (fun it => visible (snd it)) (enumerate 0 (targets w)))
      (hitTest bullet').

(** [Object.values(bullets)] holds the very objects [bullets] refers to;
    a bullet is only touched in its own turn, so it still has the fields of
    the snapshot when its turn comes. *)
Definition updateBullets (delta : Q) : M World unit :=
  w <- get ;;
  if negb (GameState_eqb (state (gm w)) PLAYING) then ret tt
  else forEach (bullets w) (updateBullet delta).

Definition moveTarget (levelConfig : LevelConfig) (delta : Q) (target : Target) : Target :=
  let speed :=
    if Qeq_bool (moveSpeed target) 0 then targetSpeed levelConfig else moveSpeed target in
  let direction := moveDirection target in
  let px := (x (position target) + x direction * speed * delta)%Q in
  let py := (y (position target) + y direction * speed * delta)%Q in
  let dx :=
    if Qlt_bool px (-5) || Qlt_bool 5 px then (x direction * -1)%Q else x direction in
  let dy :=
    if Qlt_bool py (1 # 2) || Qlt_bool 4 py then (y direction * -1)%Q else y direction in
  mkTarget (mkVector3 px py (z (position target))) (visible target) (scale target)
    (mkVector3 dx dy (z direction)) (moveSpeed target) (isMoving target)
    (shrinkTweens target).

Definition updateTargets (delta : Q) : M World unit :=
  w <- get ;;
  if negb (GameState_eqb (state (gm w)) PLAYING) then ret tt
  else
    levelConfig <- defined (getCurrentLevelConfig (gm w)) ;;
    if negb (movingTargets levelConfig) then ret tt
    else
      modify (fun w =>
        set_targets
          (map (fun target =>
                  if visible target && isMoving target
                  then moveTarget levelConfig delta target
                  else target)
               (targets w)) w).

(** The timer decrement of [onFrame]. *)
Definition tickTimer (delta : Q) : M World unit := onManager (updateTime delta).

(** The arena advancement of [onFrame]. *)
Definition advanceArena (delta : Q) : M World unit :=
  updateBullets delta ;;
  updateTargets delta.

(** [onFrame].  The closing [gsap.ticker.tick(delta)] is not modelled: it
    advances the hit tweens of the targets (their scale, then their
    visibility) and touches neither the controller nor the bullets, so the
    targets of the result are those before the tweens run. *)
Definition onFrame (delta : Q) (click : option Click) (fire : option Shot) : M World unit :=
  handleUIInteraction click ;;
  tickTimer delta ;;
  handleBlasterInput fire ;;
  advanceArena delta.

End Arena.

(** ** Vocabulary of the statements *)

(** The controller as [completeLevel] leaves it, with score [s] and high
    scores [hs]. *)
Definition completed (g : GameManager) (s : Z) (hs : list Z) : GameManager :=
  mkGameManager LEVEL_COMPLETE (currentLevel g) s (timeRemaining g) (settings g) hs.

(** The high-score table has an entry for the current level. *)
Definition hasBest (g : GameManager) : Prop :=
  exists best, item (highScores g) (currentLevel g) = Some best.

(** What every state of a controller built with a five-entry table keeps. *)
Definition wellFormed (g : GameManager) : Prop :=
  0 <= currentLevel g < LEVELS_length /\
  Z.of_nat (List.length (highScores g)) = LEVELS_length.

(** A fresh controller with a started level: the state of play used in the
    concrete runs below. *)
Definition playingLevel (i : Z) : option GameManager :=
  exec (startLevel i) (newGameManager Absent Absent).

(** The arena bounds of a freshly placed target. *)
Definition inBounds (p : Vector3) : Prop :=
  (-5 <= x p <= 5 /\ 1 <= y p <= 3 /\ -10 <= z p <= -5)%Q.

(** A target as one iteration of [initializeTargets] leaves it. *)
Definition activated (levelConfig : LevelConfig) (t : Target) : Prop :=
  visible t = true /\
  inBounds (position t) /\
  moveSpeed t = targetSpeed levelConfig /\
  isMoving t = movingTargets levelConfig.

Definition visibleCount (ts : list Target) : nat :=
  List.length (filter visible ts).

(** The bullet after the movement and the countdown of one tick. *)
Definition advanced (delta : Q) (bullet : Bullet) : Bullet :=
  mkBullet (uuid bullet)
    (add (bulletPosition bullet) (multiplyScalar (velocity bullet) delta))
    (velocity bullet) (timeToLive bullet - delta)%Q.

(** A score that has reached the goal of the current level has ended the
    level. *)
Definition settled (g : GameManager) : Prop :=
  forall cfg,
    getCurrentLevelConfig g = Some cfg ->
    scoreToComplete cfg <= score g ->
    state g = LEVEL_COMPLETE.

(** A [Math.random] that always returns 0.5.  The direction drawn from it
    is the zero vector, which [THREE.Vector3.normalize] leaves as it is. *)
Definition halfRandom (n : nat) : Q := 1 # 2.
Definition normalizeNull (v : Vector3) : Vector3 := v.

(** A visible, resting target at [p]. *)
Definition targetAt (p : Vector3) : Target :=
  mkTarget p true (mkVector3 1 1 1) (mkVector3 0 0 0) 0 false 0.

(** Level 0 in play with the given score, bullets and targets. *)
Definition arena (s : Z) (bs : list Bullet) (ts : list Target) (model : bool) : World :=
  mkWorld (mkGameManager PLAYING 0 s 60 DEFAULT_SETTINGS [0; 0; 0; 0; 0]) bs ts model 0.

(** The pool while the loop of [initializeTargets] is about to run its
    iteration [i], having started from [len0] hidden targets: the activated
    targets come first, the hidden ones after them. *)
Definition poolInvariant (levelConfig : LevelConfig) (len0 i : nat) (w : World) : Prop :=
  exists done rest,
    targets w = done ++ rest /\
    Forall (activated levelConfig) done /\
    Forall (fun t => visible t = false) rest /\
    List.length (targets w) = (if targetModel w then Nat.max len0 i else len0) /\
    (List.length done = i \/
     (targetModel w = false /\ rest = [] /\ (List.length done <= i)%nat)).

(** Notifications on which [observe] leaves targets and bullets alone. *)
Definition quiet (e : Event) : Prop :=
  match e with
  | StateChanged MENU | StateChanged PLAYING => False
  | _ => True
  end.

(** During the arena advancement that started with controller [g0]: the
    controller is untouched so far, or its score and state agree. *)
Definition consistent (g0 : GameManager) (w : World) : Prop :=
  gm w = g0 \/ settled (gm w).

(** ** The panels of the UI module *)

(** [n.toString()] for an integer. *)
Definition toString (n : Z) : string := NilZero.string_of_int (Z.to_int n).

Fixpoint repeatChar (n : nat) (c : ascii) : string :=
  match n with
  | O => EmptyString
  | S m => String c (repeatChar m c)
  end.

(** [s.padStart(n, c)] for a one-character filler. *)
Definition padStart (n : nat) (c : ascii) (s : string) : string :=
  append (repeatChar (n - String.length s) c) s.

Definition SECONDARY_COLOR : Z := 0x4a9eff.
Definition HOVER_COLOR : Z := 0xffcc00.

Module GameHUD.

(** [updateScore]: the text given to [scoreText]. *)
Definition updateScore (score : Z) : string :=
  let clampedScore := Z.max 0 (Z.min 9999 score) in
  padStart 4 "0"%char (toString clampedScore).

(** [updateTime]: the text and the colour given to [timeText]. *)
Definition updateTime (time : Q) : string * Z :=
  let displayTime := Z.max 0 (Qceiling time) in
  (toString displayTime, if displayTime <=? 10 then 0xff4444 else SECONDARY_COLOR).

End GameHUD.

(** A button of a panel: what it is labelled with and what its [onClick]
    asks of [gameManager]. *)
Record Button : Type := mkButton {
  label : string;
  onClick : Click
}.

Module ResultScreen.

(** The buttons [showLevelComplete] pushes, in order. *)
Definition showLevelComplete (levelConfig : LevelConfig) : list Button :=
  (if id levelConfig <? LEVELS_length
   then [mkButton "NEXT LEVEL" ClickNextLevel]
   else [])
  ++ [mkButton "MENU" ClickMenu].

(** The buttons [showGameOver] pushes, in order. *)
Definition showGameOver : list Button :=
  [mkButton "TRY AGAIN" ClickRetry; mkButton "MENU" ClickMenu].

End ResultScreen.

Module MenuUI.

(** The level buttons [showLevelSelect] pushes, in order, labelled
    [`${level.id}. ${level.name}`]. *)
Definition showLevelSelect : list Button :=
  map (fun it : nat * LevelConfig =>
         mkButton (append (toString (id (snd it))) (append ". " (name (snd it))))
           (ClickLevel (Z.of_nat (fst it))))
      (enumerate 0 LEVELS).

End MenuUI.

(** The hover state of a button and the colour of its background.
    [updateHover] with the index of the hovered button, if any. *)
Record Hover : Type := mkHover {
  hovered : bool;
  background : Z
}.

Definition updateHover (hoveredButton : option nat) (buttons : list Hover) : list Hover :=
  map (fun it : nat * Hover =>
         let isHovered :=
           match hoveredButton with
           | Some h => Nat.eqb (fst it) h
           | None => false
           end in
         if Bool.eqb isHovered (hovered (snd it)) then snd it
         else mkHover isHovered (if isHovered then HOVER_COLOR else SECONDARY_COLOR))
      (enumerate 0 buttons).

(** ** Vocabulary of the bullet accounting *)

(** A target without its count of hit animations. *)
Definition still (t : Target) : Target :=
  mkTarget (position t) (visible t) (scale t) (moveDirection t) (moveSpeed t)
    (isMoving t) 0.

(** The visible targets of [ts] within the hit radius of [b]. *)
Definition hitsOf (ts : list Target) (b : Bullet) : nat :=
  List.length
    (filter (fun t => visible t
                      && Qlt_bool (distanceToSquared (position t) (bulletPosition b)) 1)
            ts).

(** The hits of one bullet in one tick. *)
Definition hitsAt (delta : Q) (ts : list Target) (b : Bullet) : nat :=
  if Qlt_bool (timeToLive b) 0 then O else hitsOf ts (advanced delta b).

Fixpoint totalHits (delta : Q) (ts : list Target) (bs : list Bullet) : nat :=
  match bs with
  | [] => O
  | b :: rest => (hitsAt delta ts b + totalHits delta ts rest)%nat
  end.

(** The bullets a tick leaves: those that had not expired and hit nothing,
    advanced. *)
Fixpoint survivors (delta : Q) (ts : list Target) (bs : list Bullet) : list Bullet :=
  match bs with
  | [] => []
  | b :: rest =>
      (if Qlt_bool (timeToLive b) 0 then []
       else if Nat.eqb (hitsOf ts (advanced delta b)) 0 then [advanced delta b]
       else [])
      ++ survivors delta ts rest
  end.

(** ** Vocabulary of the controller invariants *)

(** While a level is being played, its goal has not been reached. *)
Definition belowGoal (g : GameManager) : Prop :=
  state g = PLAYING ->
  forall cfg, getCurrentLevelConfig g = Some cfg -> score g < scoreToComplete cfg.

(** The controller method behind a click. *)
Definition clickOps (click : option Click) : list Op :=
  match click with
  | None => []
  | Some (ClickLevel index) => [OpStartLevel index]
  | Some ClickToggleLeftHanded => [OpToggleLeftHandedMode]
  | Some ClickNextLevel => [OpNextLevel]
  | Some ClickMenu => [OpGoToMenu]
  | Some ClickRetry => [OpRestartLevel]
  end.

(** [n] scoring calls of the arena, as controller methods. *)
Definition scoringCalls (n : nat) : list Op := repeat (OpAddScore 10) n.

(** From [w] to [w'] the controller went through scoring calls only, with
    notifications [e]. *)
Definition scored (w w' : World) (e : list Event) : Prop :=
  exists n, runOps (scoringCalls n) (gm w) = Some (tt, gm w', e).

(** ** Vocabulary of the panel properties *)

(** The number a decimal text reads as. *)
Definition readNumber (text : string) : option Z :=
  option_map Z.of_int (NilZero.int_of_string text).

(** The score text for [c] has four characters and reads as [c]. *)
Definition scoreTextOk (c : Z) : bool :=
  let text := padStart 4 "0"%char (toString c) in
  Nat.eqb (String.length text) 4
  && match readNumber text with
     | Some v => v =? c
     | None => false
     end.

(** The background of a button shows whether it is hovered. *)
Definition coloured (b : Hover) : Prop :=
  background b = if hovered b then HOVER_COLOR else SECONDARY_COLOR.

(** * Properties *)

(** ** The level catalog and [getCurrentLevelConfig] *)

Lemma LEVELS_length_eq : LEVELS_length = 5.
Proof. reflexivity. Qed.

Lemma item_in_range {A : Type} (a : list A) (i : Z) :
  0 <= i < Z.of_nat (List.length a) -> exists v, item a i = Some v /\ In v a.
Proof.
  intros Hi. unfold item.
  destruct (Z.ltb_spec i 0) as [Hneg | _]; [lia |].
  destruct (nth_error a (Z.to_nat i)) as [v |] eqn:E.
  - exists v. split; [reflexivity | eapply nth_error_In; eassumption].
  - apply nth_error_None in E. lia.
Qed.

Lemma item_out_of_range {A : Type} (a : list A) (i : Z) :
  i < 0 \/ Z.of_nat (List.length a) <= i -> item a i = None.
Proof.
  intros Hi. unfold item.
  destruct (Z.ltb_spec i 0) as [_ | Hpos]; [reflexivity |].
  apply nth_error_None. lia.
Qed.

Lemma getCurrentLevelConfig_some (g : GameManager) :
  exists cfg, getCurrentLevelConfig g = Some cfg /\ In cfg LEVELS.
Proof.
  unfold getCurrentLevelConfig.
  destruct (Z.ltb_spec (currentLevel g) 0) as [Hneg | Hpos]; cbn [orb].
  - apply item_in_range. cbn. lia.
  - destruct (Z.geb_spec (currentLevel g) LEVELS_length) as [Hbig | Hsmall].
    + apply item_in_range. cbn. lia.
    + apply item_in_range. fold LEVELS_length. lia.
Qed.

(** C10. [getCurrentLevelConfig] is total: whatever integer [currentLevel]
    holds, it returns a level of the catalog and does not fail; where the
    plain indexed access [LEVELS[currentLevel]] has no element (a negative
    or past-the-end index) it returns the first level of the catalog, and
    otherwise the level at that index. *)
Theorem getCurrentLevelConfig_total :
  forall g : GameManager,
    exists cfg,
      getCurrentLevelConfig g = Some cfg /\
      In cfg LEVELS /\
      if (currentLevel g <? 0) || (currentLevel g >=? LEVELS_length)
      then item LEVELS (currentLevel g) = None /\ item LEVELS 0 = Some cfg
      else item LEVELS (currentLevel g) = Some cfg.
Proof.
  intros g. destruct (getCurrentLevelConfig_some g) as [cfg [Hcfg Hin]].
  exists cfg. split; [exact Hcfg | split; [exact Hin |]].
  unfold getCurrentLevelConfig in Hcfg.
  destruct ((currentLevel g <? 0) || (currentLevel g >=? LEVELS_length)) eqn:E.
  - split; [| exact Hcfg].
    apply item_out_of_range. fold LEVELS_length.
    apply orb_true_iff in E. destruct E as [E | E].
    + apply Z.ltb_lt in E. lia.
    + apply Z.geb_le in E. lia.
  - exact Hcfg.
Qed.

(** ** Starting a level *)

Lemma out_of_range_false (i : Z) :
  0 <= i < LEVELS_length -> (i <? 0) || (i >=? LEVELS_length) = false.
Proof.
  intros Hi. apply orb_false_iff. split.
  - apply Z.ltb_ge. lia.
  - destruct (Z.geb_spec i LEVELS_length); [lia | reflexivity].
Qed.

Lemma out_of_range_true (i : Z) :
  i < 0 \/ LEVELS_length <= i -> (i <? 0) || (i >=? LEVELS_length) = true.
Proof.
  intros Hi. apply orb_true_iff. destruct Hi as [Hi | Hi].
  - left. apply Z.ltb_lt. exact Hi.
  - right. destruct (Z.geb_spec i LEVELS_length); [reflexivity | lia].
Qed.

Lemma startLevel_in_range (i : Z) (g : GameManager) (cfg : LevelConfig) :
  0 <= i < LEVELS_length ->
  item LEVELS i = Some cfg ->
  startLevel i g =
    Some (tt, mkGameManager PLAYING i 0 (timeLimit cfg) (settings g) (highScores g),
          [StateChanged PLAYING; ScoreChanged 0]).
Proof.
  intros Hi Hcfg.
  unfold startLevel, setState, bind, modify, get, emit, defined, getCurrentLevelConfig.
  rewrite (out_of_range_false i Hi). cbn -[LEVELS LEVELS_length item Z.ltb Z.geb].
  rewrite (out_of_range_false i Hi), Hcfg. reflexivity.
Qed.

Lemma startLevel_coerced (i : Z) (g : GameManager) :
  i < 0 \/ LEVELS_length <= i -> startLevel i g = startLevel 0 g.
Proof.
  intros Hi. unfold startLevel.
  rewrite (out_of_range_true i Hi). reflexivity.
Qed.

(** C6. For a valid index [i] in [0, levelCount), [startLevel(i)] returns
    with score 0, state Playing, [currentLevel = i] and [timeRemaining] the
    time limit of the [i]-th level (settings and high scores untouched,
    state-changed(Playing) then score-changed(0) notified); for a negative
    or past-the-end index it behaves exactly as [startLevel(0)]. *)
Theorem startLevel_spec :
  forall (i : Z) (g : GameManager),
    (0 <= i < LEVELS_length ->
     exists cfg g',
       item LEVELS i = Some cfg /\
       startLevel i g = Some (tt, g', [StateChanged PLAYING; ScoreChanged 0]) /\
       score g' = 0 /\ state g' = PLAYING /\ currentLevel g' = i /\
       timeRemaining g' = timeLimit cfg /\
       settings g' = settings g /\ highScores g' = highScores g) /\
    (i < 0 \/ LEVELS_length <= i -> startLevel i g = startLevel 0 g).
Proof.
  intros i g. split.
  - intros Hi.
    destruct (item_in_range LEVELS i Hi) as [cfg [Hcfg _]].
    exists cfg. eexists. split; [exact Hcfg |].
    split; [exact (startLevel_in_range i g cfg Hi Hcfg) |].
    cbn. repeat split.
  - apply startLevel_coerced.
Qed.

(** The theorem at level index 3 and at the invalid indices 7 and -2. *)
Lemma startLevel_spec_witness :
  (exists g',
     exec (startLevel 3) (newGameManager Absent Absent) = Some g' /\
     score g' = 0 /\ state g' = PLAYING /\ currentLevel g' = 3 /\
     timeRemaining g' = 60%Q) /\
  startLevel 7 (newGameManager Absent Absent)
  = startLevel 0 (newGameManager Absent Absent) /\
  startLevel (-2) (newGameManager Absent Absent)
  = startLevel 0 (newGameManager Absent Absent).
Proof.
  split; [| split].
  - destruct (proj1 (startLevel_spec 3 (newGameManager Absent Absent)))
      as [cfg [g' [Hcfg [Hrun [Hs [Hst [Hc [Ht _]]]]]]]].
    + rewrite LEVELS_length_eq. lia.
    + exists g'. unfold exec. rewrite Hrun.
      split; [reflexivity |]. split; [exact Hs |]. split; [exact Hst |].
      split; [exact Hc |]. rewrite Ht.
      vm_compute in Hcfg. injection Hcfg as <-. reflexivity.
  - apply (proj2 (startLevel_spec 7 (newGameManager Absent Absent))).
    right. rewrite LEVELS_length_eq. lia.
  - apply (proj2 (startLevel_spec (-2) (newGameManager Absent Absent))).
    left. reflexivity.
Defined.

(** ** Closed forms of [addScore] and [updateTime] *)

Lemma addScore_run (points : Z) (g : GameManager) (cfg : LevelConfig) :
  getCurrentLevelConfig g = Some cfg ->
  addScore points g =
    let s := score g + points in
    if s >=? scoreToComplete cfg then
      match item (highScores g) (currentLevel g) with
      | Some best =>
          if s >? best
          then
            let hs := setItem (highScores g) (currentLevel g) s in
            Some (tt, completed g s hs,
                  [ScoreChanged s; Saved (settings g) hs; StateChanged LEVEL_COMPLETE])
          else
            Some (tt, completed g s (highScores g),
                  [ScoreChanged s; StateChanged LEVEL_COMPLETE])
      | None =>
          Some (tt, completed g s (highScores g),
                [ScoreChanged s; StateChanged LEVEL_COMPLETE])
      end
    else Some (tt, set_score s g, [ScoreChanged s]).
Proof.
  intros Hcfg.
  unfold addScore, completeLevel, saveSettings, setState, bind, modify, get, emit, defined.
  change (getCurrentLevelConfig (set_score (score g + points) g))
    with (getCurrentLevelConfig g).
  rewrite Hcfg. cbn -[item setItem Z.geb Z.gtb].
  destruct (score g + points >=? scoreToComplete cfg); [| reflexivity].
  cbn -[item setItem Z.geb Z.gtb].
  destruct (item (highScores g) (currentLevel g)) as [best |]; [| reflexivity].
  destruct (score g + points >? best); reflexivity.
Qed.

Lemma updateTime_playing (delta : Q) (g : GameManager) :
  state g = PLAYING ->
  updateTime delta g =
    let t := (timeRemaining g - delta)%Q in
    if Qle_bool t 0
    then Some (tt,
               mkGameManager GAME_OVER (currentLevel g) (score g) 0%Q (settings g)
                 (highScores g),
               [TimeChanged t; StateChanged GAME_OVER])
    else Some (tt, set_timeRemaining t g, [TimeChanged t]).
Proof.
  intros Hst.
  unfold updateTime, gameOver, setState, bind, modify, get, emit, ret.
  rewrite Hst. cbn -[Qle_bool Qminus].
  destruct (Qle_bool (timeRemaining g - delta) 0); reflexivity.
Qed.

Lemma updateTime_not_playing (delta : Q) (g : GameManager) :
  state g <> PLAYING -> updateTime delta g = Some (tt, g, []).
Proof.
  intros Hst. unfold updateTime, bind, get, ret.
  destruct (state g); try reflexivity. contradiction.
Qed.

Lemma Qlt_bool_iff (a b : Q) : Qlt_bool a b = true <-> (a < b)%Q.
Proof.
  unfold Qlt_bool. rewrite negb_true_iff.
  split.
  - intros H. apply Qnot_le_lt. intros Hle.
    apply Qle_bool_iff in Hle. congruence.
  - intros H. destruct (Qle_bool b a) eqn:E; [| reflexivity].
    apply Qle_bool_iff in E. apply Qlt_not_le in H. contradiction.
Qed.

Lemma Qle_bool_false (a b : Q) : Qle_bool a b = false -> (b < a)%Q.
Proof.
  intros H. apply Qnot_le_lt. intros Hle.
  apply Qle_bool_iff in Hle. congruence.
Qed.

(** ** Scoring *)

Lemma addScore_returns (points : Z) (g : GameManager) :
  exists g' evs,
    addScore points g = Some (tt, g', evs) /\
    score g' = score g + points /\
    currentLevel g' = currentLevel g /\
    timeRemaining g' = timeRemaining g /\
    settings g' = settings g.
Proof.
  destruct (getCurrentLevelConfig_some g) as [cfg [Hcfg _]].
  rewrite (addScore_run points g cfg Hcfg). cbv zeta.
  destruct (score g + points >=? scoreToComplete cfg).
  - destruct (item (highScores g) (currentLevel g)) as [best |].
    + destruct (score g + points >? best); eexists; eexists;
        (split; [reflexivity | cbn; repeat split]).
    + eexists; eexists; (split; [reflexivity | cbn; repeat split]).
  - eexists; eexists; (split; [reflexivity | cbn; repeat split]).
Qed.

(** C1 (the code departs from the claim).  From a fresh controller,
    [startLevel(0)] and [addScore(30)] complete the level; a further
    [addScore(10)], received in state LevelComplete, is not a no-op: the
    score goes from 30 to 40, the high score of the level is rewritten and
    the observers are notified again. *)
Theorem addScore_after_level_complete :
  exists g1 g2,
    exec (runOps [OpStartLevel 0; OpAddScore 30]) (newGameManager Absent Absent)
    = Some g1 /\
    state g1 = LEVEL_COMPLETE /\ score g1 = 30 /\
    addScore 10 g1
    = Some (tt, g2,
            [ScoreChanged 40; Saved DEFAULT_SETTINGS [40; 0; 0; 0; 0];
             StateChanged LEVEL_COMPLETE]) /\
    state g2 = LEVEL_COMPLETE /\ score g2 = 40 /\
    highScores g2 = [40; 0; 0; 0; 0].
Proof.
  eexists. eexists.
  split; [vm_compute; reflexivity |].
  repeat split.
Qed.

(** ** The countdown *)

(** C2 (as stated, refuted).  On level 0 with 60 seconds left,
    [updateTime(61)] hands the time-changed observer the value -1: the
    callback runs before the clamp. *)
Lemma updateTime_callback_negative :
  exists g t,
    playingLevel 0 = Some g /\
    In (TimeChanged t) (events (updateTime 61) g) /\
    (t < 0)%Q.
Proof.
  eexists. exists (60 - 61)%Q.
  split; [vm_compute; reflexivity |].
  split; [left; reflexivity | reflexivity].
Qed.

(** C2 (amended).  While Playing, [updateTime(delta)] subtracts [delta]
    from [timeRemaining] and passes that difference, not yet clamped, to
    the time-changed observer; if the difference is <= 0 it then sets
    [timeRemaining] to exactly 0 and moves to GameOver, otherwise it stores
    the difference and stays Playing.  While not Playing it changes no
    field and notifies nobody.  When it returns, the stored
    [timeRemaining] is not negative, provided it was not negative before. *)
Theorem updateTime_spec :
  forall (delta : Q) (g : GameManager),
    (0 <= delta)%Q ->
    (0 <= timeRemaining g)%Q ->
    (state g = PLAYING ->
     let t := (timeRemaining g - delta)%Q in
     ((t <= 0)%Q ->
      updateTime delta g =
        Some (tt,
              mkGameManager GAME_OVER (currentLevel g) (score g) 0%Q (settings g)
                (highScores g),
              [TimeChanged t; StateChanged GAME_OVER])) /\
     ((0 < t)%Q ->
      updateTime delta g = Some (tt, set_timeRemaining t g, [TimeChanged t]))) /\
    (state g <> PLAYING -> updateTime delta g = Some (tt, g, [])) /\
    (exists g' evs,
       updateTime delta g = Some (tt, g', evs) /\ (0 <= timeRemaining g')%Q).
Proof.
  intros delta g Hdelta Htime. split; [| split].
  - intros Hst t. rewrite (updateTime_playing delta g Hst). fold t. cbv zeta.
    split; intros Ht.
    + apply Qle_bool_iff in Ht. rewrite Ht. reflexivity.
    + destruct (Qle_bool t 0) eqn:E; [| reflexivity].
      apply Qle_bool_iff in E. apply Qlt_not_le in Ht. contradiction.
  - apply updateTime_not_playing.
  - destruct (GameState_eqb (state g) PLAYING) eqn:Hst.
    + assert (Hp : state g = PLAYING) by (destruct (state g); try discriminate; reflexivity).
      rewrite (updateTime_playing delta g Hp). cbv zeta.
      destruct (Qle_bool (timeRemaining g - delta) 0) eqn:E.
      * eexists. eexists. split; [reflexivity |]. cbn. apply Qle_refl.
      * eexists. eexists. split; [reflexivity |]. cbn.
        apply Qlt_le_weak. apply Qle_bool_false. exact E.
    + assert (Hp : state g <> PLAYING) by (intros Hp; rewrite Hp in Hst; discriminate).
      rewrite (updateTime_not_playing delta g Hp).
      eexists. eexists. split; [reflexivity | exact Htime].
Qed.

(** The theorem on level 0 just started (60 seconds left), for a tick of
    61 seconds and for a tick of half a second. *)
Lemma updateTime_spec_witness :
  updateTime 61 (mkGameManager PLAYING 0 0 60 DEFAULT_SETTINGS [0; 0; 0; 0; 0])
  = Some (tt, mkGameManager GAME_OVER 0 0 0 DEFAULT_SETTINGS [0; 0; 0; 0; 0],
          [TimeChanged (60 - 61)%Q; StateChanged GAME_OVER]) /\
  updateTime (1 # 2) (mkGameManager PLAYING 0 0 60 DEFAULT_SETTINGS [0; 0; 0; 0; 0])
  = Some (tt,
          mkGameManager PLAYING 0 0 (60 - (1 # 2))%Q DEFAULT_SETTINGS [0; 0; 0; 0; 0],
          [TimeChanged (60 - (1 # 2))%Q]).
Proof.
  split.
  - apply (updateTime_spec 61
             (mkGameManager PLAYING 0 0 60 DEFAULT_SETTINGS [0; 0; 0; 0; 0])).
    + unfold Qle. simpl. lia.
    + unfold Qle. simpl. lia.
    + reflexivity.
    + unfold Qle. simpl. lia.
  - apply (updateTime_spec (1 # 2)
             (mkGameManager PLAYING 0 0 60 DEFAULT_SETTINGS [0; 0; 0; 0; 0])).
    + unfold Qle. simpl. lia.
    + unfold Qle. simpl. lia.
    + reflexivity.
    + unfold Qlt. simpl. lia.
Defined.

(** ** Negative arguments *)

(** C3 (as stated, refuted).  On level 0 just started, [addScore(-5)]
    returns normally and leaves score -5, and [updateTime(-5)] returns
    normally and leaves 65 seconds: neither call is rejected. *)
Lemma negative_arguments_not_rejected :
  exists g g1 g2 evs1 evs2,
    playingLevel 0 = Some g /\
    score g = 0 /\ (timeRemaining g == 60)%Q /\
    addScore (-5) g = Some (tt, g1, evs1) /\ score g1 = -5 /\
    updateTime (-5 # 1) g = Some (tt, g2, evs2) /\ (timeRemaining g2 == 65)%Q.
Proof.
  do 5 eexists.
  split; [vm_compute; reflexivity |].
  split; [reflexivity |].
  split; [reflexivity |].
  split; [vm_compute; reflexivity |].
  split; [reflexivity |].
  split; [vm_compute; reflexivity |].
  reflexivity.
Qed.

(** C3 (amended).  Negative arguments are accepted, there is no validation
    failure.  While Playing, with the score below the goal of the level (as
    it is in every state of play), [addScore(p)] with [p < 0] returns
    normally: it lowers the score by [-p], notifies the score observer of
    the lowered score and changes nothing else, the state stays Playing.
    [updateTime(delta)] with [delta < 0] while Playing returns normally
    with [timeRemaining] raised by [-delta] and the state still Playing;
    while not Playing, [updateTime] changes nothing. *)
Theorem negative_arguments_spec :
  forall g : GameManager,
    (forall p : Z, p < 0 ->
       state g = PLAYING -> belowGoal g ->
       addScore p g
       = Some (tt, set_score (score g + p) g, [ScoreChanged (score g + p)]) /\
       score g + p < score g) /\
    (forall delta : Q, (delta < 0)%Q ->
       state g = PLAYING -> (0 <= timeRemaining g)%Q ->
       updateTime delta g =
         Some (tt, set_timeRemaining (timeRemaining g - delta)%Q g,
               [TimeChanged (timeRemaining g - delta)%Q]) /\
       (timeRemaining g < timeRemaining g - delta)%Q) /\
    (forall delta : Q, (delta < 0)%Q ->
       state g <> PLAYING -> updateTime delta g = Some (tt, g, [])).
Proof.
  intros g. split; [| split].
  - intros p Hp Hst Hbelow.
    destruct (getCurrentLevelConfig_some g) as [cfg [Hcfg _]].
    pose proof (Hbelow Hst cfg Hcfg) as Hgoal.
    split; [| lia].
    rewrite (addScore_run p g cfg Hcfg). cbv zeta.
    destruct (Z.geb_spec (score g + p) (scoreToComplete cfg)); [lia | reflexivity].
  - intros delta Hdelta Hst Htime.
    assert (Hgrow : (timeRemaining g < timeRemaining g - delta)%Q) by lra.
    split; [| exact Hgrow].
    rewrite (updateTime_playing delta g Hst). cbv zeta.
    destruct (Qle_bool (timeRemaining g - delta) 0) eqn:E; [| reflexivity].
    apply Qle_bool_iff in E. lra.
  - intros delta _ Hst. apply updateTime_not_playing. exact Hst.
Qed.

(** The theorem on level 0 just started, with [addScore(-5)] and
    [updateTime(-1)]. *)
Lemma negative_arguments_spec_witness :
  addScore (-5) (mkGameManager PLAYING 0 0 60 DEFAULT_SETTINGS [0; 0; 0; 0; 0])
  = Some (tt, mkGameManager PLAYING 0 (-5) 60 DEFAULT_SETTINGS [0; 0; 0; 0; 0],
          [ScoreChanged (-5)]) /\
  updateTime (-1 # 1) (mkGameManager PLAYING 0 0 60 DEFAULT_SETTINGS [0; 0; 0; 0; 0])
  = Some (tt,
          mkGameManager PLAYING 0 0 (60 - (-1 # 1))%Q DEFAULT_SETTINGS [0; 0; 0; 0; 0],
          [TimeChanged (60 - (-1 # 1))%Q]).
Proof.
  destruct (negative_arguments_spec
              (mkGameManager PLAYING 0 0 60 DEFAULT_SETTINGS [0; 0; 0; 0; 0]))
    as [Ha [Hu _]].
  split.
  - apply (Ha (-5)).
    + lia.
    + reflexivity.
    + intros _ cfg Hcfg. vm_compute in Hcfg. injection Hcfg as <-. simpl. lia.
  - apply (Hu (-1 # 1)).
    + unfold Qlt. simpl. lia.
    + reflexivity.
    + unfold Qle. simpl. lia.
Defined.

(** ** High scores *)

Lemma Forall2_le_refl (l : list Z) : Forall2 Z.le l l.
Proof. induction l; constructor; [lia | assumption]. Qed.

Lemma Forall2_le_trans (a b c : list Z) :
  Forall2 Z.le a b -> Forall2 Z.le b c -> Forall2 Z.le a c.
Proof.
  intros Hab. revert c.
  induction Hab as [| u v a b Huv Hab IH]; intros c Hbc; inversion Hbc; subst.
  - constructor.
  - constructor; [lia | apply IH; assumption].
Qed.

Lemma replace_nth_length {A : Type} (a : list A) (n : nat) (v : A) :
  List.length (replace_nth a n v) = List.length a.
Proof.
  revert n. induction a as [| hd tl IH]; intros n; [reflexivity |].
  destruct n; cbn; [reflexivity | rewrite IH; reflexivity].
Qed.

Lemma replace_nth_same {A : Type} (a : list A) (n : nat) (old v : A) :
  nth_error a n = Some old -> nth_error (replace_nth a n v) n = Some v.
Proof.
  revert n. induction a as [| hd tl IH]; intros n H.
  - destruct n; discriminate.
  - destruct n; cbn in *; [reflexivity | apply IH; exact H].
Qed.

Lemma replace_nth_other {A : Type} (a : list A) (n m : nat) (v : A) :
  n <> m -> nth_error (replace_nth a n v) m = nth_error a m.
Proof.
  revert n m. induction a as [| hd tl IH]; intros n m Hnm; [reflexivity |].
  destruct n, m; cbn; try reflexivity; [contradiction | apply IH; congruence].
Qed.

Lemma replace_nth_le (a : list Z) (n : nat) (best v : Z) :
  nth_error a n = Some best -> best <= v -> Forall2 Z.le a (replace_nth a n v).
Proof.
  revert n. induction a as [| hd tl IH]; intros n H Hle.
  - constructor.
  - destruct n; cbn in *.
    + injection H as ->. constructor; [exact Hle | apply Forall2_le_refl].
    + constructor; [lia | apply IH; assumption].
Qed.

Lemma item_some_nth {A : Type} (a : list A) (i : Z) (v : A) :
  item a i = Some v -> 0 <= i /\ nth_error a (Z.to_nat i) = Some v.
Proof.
  unfold item. destruct (Z.ltb_spec i 0) as [Hneg | Hpos]; [discriminate |].
  intros Hn. split; [exact Hpos | exact Hn].
Qed.

Lemma setItem_same {A : Type} (a : list A) (i : Z) (old v : A) :
  item a i = Some old -> item (setItem a i v) i = Some v.
Proof.
  intros H. destruct (item_some_nth a i old H) as [Hi Hn].
  unfold item, setItem. destruct (Z.ltb_spec i 0); [lia |].
  eapply replace_nth_same. exact Hn.
Qed.

Lemma setItem_le (a : list Z) (i best v : Z) :
  item a i = Some best -> best <= v -> Forall2 Z.le a (setItem a i v).
Proof.
  intros H Hle. destruct (item_some_nth a i best H) as [Hi Hn].
  unfold setItem. destruct (Z.ltb_spec i 0); [lia |].
  eapply replace_nth_le; eassumption.
Qed.

Lemma setItem_length {A : Type} (a : list A) (i : Z) (v : A) :
  List.length (setItem a i v) = List.length a.
Proof.
  unfold setItem. destruct (i <? 0); [reflexivity | apply replace_nth_length].
Qed.

(** What [addScore] does to the table: nothing, or one entry raised to the
    new score. *)
Lemma addScore_highScores (points : Z) (g g' : GameManager) (evs : list Event) :
  addScore points g = Some (tt, g', evs) ->
  highScores g' = highScores g \/
  exists best,
    item (highScores g) (currentLevel g) = Some best /\
    best < score g' /\
    highScores g' = setItem (highScores g) (currentLevel g) (score g').
Proof.
  destruct (getCurrentLevelConfig_some g) as [cfg [Hcfg _]].
  rewrite (addScore_run points g cfg Hcfg). cbv zeta.
  destruct (score g + points >=? scoreToComplete cfg).
  - destruct (item (highScores g) (currentLevel g)) as [best |] eqn:Hbest.
    + destruct (Z.gtb_spec (score g + points) best) as [Hgt | Hle];
        intros H; injection H as <- <-.
      * right. exists best. cbn. repeat split. lia.
      * left. reflexivity.
    + intros H; injection H as <- <-. left. reflexivity.
  - intros H; injection H as <- <-. left. reflexivity.
Qed.

Lemma startLevel_returns (i : Z) (g : GameManager) :
  exists j cfg,
    0 <= j < LEVELS_length /\
    item LEVELS j = Some cfg /\
    startLevel i g =
      Some (tt, mkGameManager PLAYING j 0 (timeLimit cfg) (settings g) (highScores g),
            [StateChanged PLAYING; ScoreChanged 0]).
Proof.
  assert (Hcases : 0 <= i < LEVELS_length \/ (i < 0 \/ LEVELS_length <= i)) by lia.
  destruct Hcases as [Hi | Hi].
  - destruct (item_in_range LEVELS i Hi) as [cfg [Hcfg _]].
    exists i, cfg. repeat split; try tauto.
    apply startLevel_in_range; assumption.
  - rewrite (startLevel_coerced i g Hi).
    assert (H0 : 0 <= 0 < LEVELS_length) by (rewrite LEVELS_length_eq; lia).
    destruct (item_in_range LEVELS 0 H0) as [cfg [Hcfg _]].
    exists 0, cfg. repeat split; try tauto.
    apply startLevel_in_range; assumption.
Qed.

(** One controller method: it returns, the table only grows entrywise, and
    a well-formed controller stays well-formed. *)
Lemma runOp_step (o : Op) (g : GameManager) :
  exists g' evs,
    runOp o g = Some (tt, g', evs) /\
    Forall2 Z.le (highScores g) (highScores g') /\
    (wellFormed g -> wellFormed g').
Proof.
  destruct o as [i | p | d | | | | kv |]; cbn [runOp].
  - destruct (startLevel_returns i g) as [j [cfg [Hj [_ Hrun]]]].
    eexists. eexists. split; [exact Hrun |]. cbn.
    split; [apply Forall2_le_refl |].
    intros [_ Hlen]. split; assumption.
  - destruct (addScore_returns p g) as [g' [evs [Hrun [_ [Hc _]]]]].
    exists g', evs. split; [exact Hrun |].
    destruct (addScore_highScores p g g' evs Hrun) as [Hsame | [best [Hb [Hlt Hset]]]].
    + split; [rewrite Hsame; apply Forall2_le_refl |].
      unfold wellFormed. rewrite Hsame, Hc. intros Hwf. exact Hwf.
    + split.
      * rewrite Hset. eapply setItem_le; [exact Hb | lia].
      * unfold wellFormed. rewrite Hc, Hset, setItem_length. intros Hwf. exact Hwf.
  - destruct (GameState_eqb (state g) PLAYING) eqn:Hst.
    + assert (Hp : state g = PLAYING) by (destruct (state g); try discriminate; reflexivity).
      rewrite (updateTime_playing d g Hp). cbv zeta.
      destruct (Qle_bool (timeRemaining g - d) 0);
        (eexists; eexists; split; [reflexivity |]; cbn;
         split; [apply Forall2_le_refl | intros Hwf; exact Hwf]).
    + assert (Hp : state g <> PLAYING) by (intros Hp; rewrite Hp in Hst; discriminate).
      rewrite (updateTime_not_playing d g Hp).
      eexists; eexists; split; [reflexivity |].
      split; [apply Forall2_le_refl | intros Hwf; exact Hwf].
  - unfold nextLevel, bind, get.
    destruct (currentLevel g <? LEVELS_length - 1).
    + destruct (startLevel_returns (currentLevel g + 1) g) as [j [cfg [Hj [_ Hrun]]]].
      rewrite Hrun. eexists. eexists. split; [reflexivity |]. cbn.
      split; [apply Forall2_le_refl |].
      intros [_ Hlen]. split; assumption.
    + eexists. eexists. split; [reflexivity |]. cbn.
      split; [apply Forall2_le_refl | intros Hwf; exact Hwf].
  - eexists. eexists. split; [reflexivity |]. cbn.
    split; [apply Forall2_le_refl | intros Hwf; exact Hwf].
  - unfold restartLevel, bind, get.
    destruct (startLevel_returns (currentLevel g) g) as [j [cfg [Hj [_ Hrun]]]].
    rewrite Hrun. eexists. eexists. split; [reflexivity |]. cbn.
    split; [apply Forall2_le_refl |].
    intros [_ Hlen]. split; assumption.
  - eexists. eexists. split; [reflexivity |]. cbn.
    split; [apply Forall2_le_refl | intros Hwf; exact Hwf].
  - eexists. eexists. split; [reflexivity |]. cbn.
    split; [apply Forall2_le_refl | intros Hwf; exact Hwf].
Qed.

Lemma runOps_steps (os : list Op) (g : GameManager) :
  exists g' evs,
    runOps os g = Some (tt, g', evs) /\
    Forall2 Z.le (highScores g) (highScores g') /\
    (wellFormed g -> wellFormed g').
Proof.
  revert g. induction os as [| o rest IH]; intros g.
  - exists g, []. split; [reflexivity |].
    split; [apply Forall2_le_refl | intros Hwf; exact Hwf].
  - destruct (runOp_step o g) as [g1 [e1 [H1 [Hle1 Hwf1]]]].
    destruct (IH g1) as [g2 [e2 [H2 [Hle2 Hwf2]]]].
    exists g2, (e1 ++ e2). cbn [runOps]. unfold bind. rewrite H1, H2.
    split; [reflexivity |].
    split; [eapply Forall2_le_trans; eassumption | intros Hwf; auto].
Qed.

Lemma wellFormed_hasBest (g : GameManager) : wellFormed g -> hasBest g.
Proof.
  intros [Hcur Hlen]. unfold hasBest.
  destruct (item_in_range (highScores g) (currentLevel g)) as [best [Hb _]];
    [lia |].
  exists best. exact Hb.
Qed.

Lemma newGameManager_wellFormed (saved : Stored Settings) (scores : Stored (list Z)) :
  match scores with
  | Parsed hs => Z.of_nat (List.length hs) = LEVELS_length
  | _ => True
  end ->
  wellFormed (newGameManager saved scores).
Proof.
  intros H. unfold wellFormed, newGameManager, loadSettings.
  destruct saved, scores; cbn; rewrite ?LEVELS_length_eq; try (split; [lia | reflexivity]);
    (split; [lia | rewrite H; reflexivity]).
Qed.

(** Every state reached from construction has a table entry for the
    current level, when [localStorage] held no table or one with an entry
    per level (which is what [saveSettings] writes). *)
Lemma reachable_hasBest (saved : Stored Settings) (scores : Stored (list Z))
    (os : list Op) (g : GameManager) (evs : list Event) :
  match scores with
  | Parsed hs => Z.of_nat (List.length hs) = LEVELS_length
  | _ => True
  end ->
  runOps os (newGameManager saved scores) = Some (tt, g, evs) -> hasBest g.
Proof.
  intros Hscores Hrun.
  destruct (runOps_steps os (newGameManager saved scores)) as [g' [evs' [H [_ Hwf]]]].
  rewrite Hrun in H. injection H as <- <-.
  apply wellFormed_hasBest. apply Hwf.
  apply (newGameManager_wellFormed saved scores). exact Hscores.
Qed.




(** ** Bullets *)

(** C4 (the code departs from the claim).  One bullet at (0,1,-5) flying
    at speed 10 towards two visible targets at (0,1,-6) and (0.5,1,-6): after
    [updateBullets(0.1)] it is within the hit radius of both, and the inner
    loop, which goes on after the first hit, scores against both: two
    scoring callbacks, 20 points, a hit animation on either target.  With
    20 points already scored on level 0, the second of the two callbacks
    reaches [addScore] in state LevelComplete. *)
Theorem updateBullets_scores_twice :
  forall (random : nat -> Q) (normalize : Vector3 -> Vector3),
    let bullet := mkBullet "b" (mkVector3 0 1 (-5 # 1)) (mkVector3 0 0 (-10 # 1)) 1 in
    let near := targetAt (mkVector3 0 1 (-6 # 1)) in
    let far := targetAt (mkVector3 (1 # 2) 1 (-6 # 1)) in
    Qlt_bool (distanceToSquared (position near)
                (bulletPosition (advanced (1 # 10) bullet))) 1 = true /\
    Qlt_bool (distanceToSquared (position far)
                (bulletPosition (advanced (1 # 10) bullet))) 1 = true /\
    (exists w',
       updateBullets random normalize (1 # 10) (arena 0 [bullet] [near; far] true)
       = Some (tt, w', [ScoreChanged 10; ScoreChanged 20]) /\
       score (gm w') = 20 /\ bullets w' = [] /\
       map shrinkTweens (targets w') = [1%nat; 1%nat]) /\
    (exists w',
       updateBullets random normalize (1 # 10) (arena 20 [bullet] [near; far] true)
       = Some (tt, w',
               [ScoreChanged 30; Saved DEFAULT_SETTINGS [30; 0; 0; 0; 0];
                StateChanged LEVEL_COMPLETE;
                ScoreChanged 40; Saved DEFAULT_SETTINGS [40; 0; 0; 0; 0];
                StateChanged LEVEL_COMPLETE]) /\
       score (gm w') = 40 /\ state (gm w') = LEVEL_COMPLETE).
Proof.
  intros random normalize bullet near far.
  split; [reflexivity |]. split; [reflexivity |].
  split; eexists; (split; [vm_compute; reflexivity | repeat split]).
Qed.

Lemma forEach_all_skip {S A : Type} (l : list A) (f : A -> M S unit) (s : S) :
  (forall a, In a l -> f a s = Some (tt, s, [])) ->
  forEach l f s = Some (tt, s, []).
Proof.
  induction l as [| a rest IH]; intros Hf; [reflexivity |].
  cbn [forEach]. unfold bind.
  rewrite (Hf a (or_introl eq_refl)).
  rewrite IH; [reflexivity |].
  intros b Hb. apply Hf. right. exact Hb.
Qed.

Lemma enumerate_In {A : Type} (l : list A) (i n : nat) (a : A) :
  In (n, a) (enumerate i l) -> In a l.
Proof.
  revert i. induction l as [| hd tl IH]; intros i H; [contradiction |].
  destruct H as [H | H].
  - left. congruence.
  - right. eapply IH. exact H.
Qed.

(** C5 (as stated, refuted).  A bullet with 0.05 s to live, ticked by
    0.1 s: its time to live falls below 0 during the tick, yet it is not
    destroyed; it is moved by [velocity * delta] and stays in [bullets]. *)
Lemma updateBullets_expiring_bullet_moves :
  let bullet := mkBullet "b" (mkVector3 0 0 0) (mkVector3 0 0 (-10 # 1)) (1 # 20) in
  (timeToLive bullet - (1 # 10) < 0)%Q /\
  exists w',
    exec (updateBullets halfRandom normalizeNull (1 # 10)) (arena 0 [bullet] [] true)
    = Some w' /\
    bullets w' = [advanced (1 # 10) bullet] /\
    (z (bulletPosition (advanced (1 # 10) bullet)) == -1)%Q /\
    (timeToLive (advanced (1 # 10) bullet) == - (1 # 20))%Q.
Proof.
  intros bullet. split; [reflexivity |].
  eexists. split; [vm_compute; reflexivity |].
  repeat split.
Qed.

(** C5 (amended).  [updateBullets] does nothing unless the state is
    Playing, and otherwise runs [updateBullet] on every bullet in turn.  A
    bullet whose [timeToLive] is already below 0 when its turn comes is
    removed from [bullets] and gets no further processing (no movement, no
    collision test, no score).  Any other bullet first has its position
    advanced by [velocity * delta] and its [timeToLive] decremented by
    [delta], and is then tested against the visible targets at its advanced
    position; when no visible target is within the radius it stays in
    [bullets], moved and decremented, even if its [timeToLive] has just
    fallen below 0. *)
Theorem updateBullet_spec :
  forall (random : nat -> Q) (normalize : Vector3 -> Vector3)
         (delta : Q) (bullet : Bullet) (w : World),
    (state (gm w) <> PLAYING ->
     updateBullets random normalize delta w = Some (tt, w, [])) /\
    (state (gm w) = PLAYING ->
     updateBullets random normalize delta w
     = forEach (bullets w) (updateBullet random normalize delta) w) /\
    ((timeToLive bullet < 0)%Q ->
     updateBullet random normalize delta bullet w
     = Some (tt, set_bullets (deleteBullet (uuid bullet) (bullets w)) w, [])) /\
    ((0 <= timeToLive bullet)%Q ->
     let w1 := set_bullets (mutateBullet (advanced delta bullet) (bullets w)) w in
     updateBullet random normalize delta bullet w
     = forEach (filter (fun it => visible (snd it)) (enumerate 0 (targets w)))
         (hitTest random normalize (advanced delta bullet)) w1 /\
     ((forall t, In t (targets w) -> visible t = true ->
                 (1 <= distanceToSquared (position t)
                         (bulletPosition (advanced delta bullet)))%Q) ->
      updateBullet random normalize delta bullet w = Some (tt, w1, []))).
Proof.
  intros random normalize delta bullet w.
  split; [| split; [| split]].
  - intros Hst. unfold updateBullets, bind, get, ret.
    destruct (state (gm w)); try reflexivity. contradiction.
  - intros Hst. unfold updateBullets, bind, get. rewrite Hst. cbn.
    destruct (forEach (bullets w) (updateBullet random normalize delta) w)
      as [[[[] w'] evs] |]; reflexivity.
  - intros Hdead. apply Qlt_bool_iff in Hdead.
    unfold updateBullet. rewrite Hdead. reflexivity.
  - intros Hlive w1.
    assert (Hrun :
      updateBullet random normalize delta bullet w
      = forEach (filter (fun it => visible (snd it)) (enumerate 0 (targets w)))
          (hitTest random normalize (advanced delta bullet)) w1).
    { unfold updateBullet.
      destruct (Qlt_bool (timeToLive bullet) 0) eqn:E.
      - apply Qlt_bool_iff in E. apply Qlt_not_le in E. contradiction.
      - unfold bind, modify, get. fold (advanced delta bullet). fold w1.
        change (targets w1) with (targets w).
        destruct (forEach (filter (fun it => visible (snd it)) (enumerate 0 (targets w)))
                    (hitTest random normalize (advanced delta bullet)) w1)
          as [[[[] w'] evs] |]; reflexivity. }
    split; [exact Hrun |].
    intros Hfar. rewrite Hrun.
    apply forEach_all_skip.
    intros [i t] Hin. apply filter_In in Hin. destruct Hin as [Hin Hvis].
    apply enumerate_In in Hin. cbn in Hvis.
    unfold hitTest.
    destruct (Qlt_bool (distanceToSquared (position t)
                          (bulletPosition (advanced delta bullet))) 1) eqn:E.
    + apply Qlt_bool_iff in E. apply Qlt_not_le in E.
      exfalso. apply E. apply Hfar; assumption.
    + reflexivity.
Qed.

(** The theorem on a bullet that has expired and on a bullet in flight with
    no target around. *)
Lemma updateBullet_spec_witness :
  let dead := mkBullet "d" (mkVector3 0 0 0) (mkVector3 0 0 (-10 # 1)) (-1 # 10) in
  let live := mkBullet "b" (mkVector3 0 0 0) (mkVector3 0 0 (-10 # 1)) 1 in
  updateBullet halfRandom normalizeNull (1 # 10) dead (arena 0 [dead; live] [] true)
  = Some (tt, arena 0 [live] [] true, []) /\
  updateBullet halfRandom normalizeNull (1 # 10) live (arena 0 [dead; live] [] true)
  = Some (tt, arena 0 [dead; advanced (1 # 10) live] [] true, []) /\
  updateBullets halfRandom normalizeNull (1 # 10)
    (mkWorld (newGameManager Absent Absent) [live] [] true 0)
  = Some (tt, mkWorld (newGameManager Absent Absent) [live] [] true 0, []).
Proof.
  intros dead live. split; [| split].
  - apply (updateBullet_spec halfRandom normalizeNull (1 # 10) dead
             (arena 0 [dead; live] [] true)).
    unfold Qlt. simpl. lia.
  - apply (updateBullet_spec halfRandom normalizeNull (1 # 10) live
             (arena 0 [dead; live] [] true)).
    + unfold Qle. simpl. lia.
    + simpl. intros t Hin. contradiction.
  - apply (updateBullet_spec halfRandom normalizeNull (1 # 10) live
             (mkWorld (newGameManager Absent Absent) [live] [] true 0)).
    simpl. discriminate.
Defined.

(** ** The target pool *)

Lemma replace_nth_app {A : Type} (done rest : list A) (r v : A) :
  replace_nth (done ++ r :: rest) (List.length done) v = done ++ v :: rest.
Proof.
  induction done as [| hd tl IH]; cbn; [reflexivity | rewrite IH; reflexivity].
Qed.

Lemma nth_error_middle {A : Type} (done rest : list A) (r : A) :
  nth_error (done ++ r :: rest) (List.length done) = Some r.
Proof.
  induction done as [| hd tl IH]; cbn; [reflexivity | exact IH].
Qed.

Lemma visibleCount_split (levelConfig : LevelConfig) (done rest : list Target) :
  Forall (activated levelConfig) done ->
  Forall (fun t => visible t = false) rest ->
  visibleCount (done ++ rest) = List.length done.
Proof.
  intros Hdone Hrest. unfold visibleCount. rewrite filter_app, length_app.
  assert (H1 : filter visible done = done).
  { clear Hrest. induction Hdone as [| t l Ht _ IH]; [reflexivity |].
    cbn. destruct Ht as [Hv _]. rewrite Hv, IH. reflexivity. }
  assert (H2 : filter visible rest = []).
  { clear Hdone H1. induction Hrest as [| t l Ht _ IH]; [reflexivity |].
    cbn. rewrite Ht. exact IH. }
  rewrite H1, H2. cbn. lia.
Qed.

Section Pool.

Variable random : nat -> Q.
Variable normalize : Vector3 -> Vector3.
Hypothesis random_range : forall n, (0 <= random n < 1)%Q.

Lemma activate_activated (levelConfig : LevelConfig) (c : nat) (t : Target) :
  activated levelConfig (activate random normalize levelConfig c t).
Proof.
  unfold activated, activate, inBounds. cbn.
  pose proof (random_range c) as H0.
  pose proof (random_range (c + 1)) as H1.
  pose proof (random_range (c + 2)) as H2.
  repeat split; lra.
Qed.

Lemma body_targetModel (levelConfig : LevelConfig) (i : nat) (w : World) :
  targetModel (initializeTargets_body random normalize levelConfig i w) = targetModel w /\
  gm (initializeTargets_body random normalize levelConfig i w) = gm w /\
  bullets (initializeTargets_body random normalize levelConfig i w) = bullets w.
Proof.
  unfold initializeTargets_body.
  destruct (i <? List.length (targets w))%nat.
  - destruct (nth_error (targets w) i); repeat split.
  - destruct (targetModel w) eqn:Hmodel; cbn; rewrite ?Hmodel; repeat split.
Qed.

Lemma initializeTargets_gm (levelConfig : LevelConfig) (w : World) :
  gm (initializeTargets random normalize levelConfig w) = gm w.
Proof.
  unfold initializeTargets.
  change (gm w) with (gm (hideTargets w)).
  generalize (hideTargets w) as v. generalize 0%nat as i.
  induction (targetCount levelConfig) as [| n IH]; intros i v; [reflexivity |].
  cbn [initializeTargets_loop]. rewrite IH.
  apply (body_targetModel levelConfig i v).
Qed.

Lemma body_invariant (levelConfig : LevelConfig) (len0 i : nat) (w : World) :
  poolInvariant levelConfig len0 i w ->
  poolInvariant levelConfig len0 (S i)
    (initializeTargets_body random normalize levelConfig i w).
Proof.
  intros [done [rest [Hsplit [Hdone [Hrest [Hlen Hpos]]]]]].
  unfold poolInvariant, initializeTargets_body.
  destruct (Nat.ltb_spec i (List.length (targets w))) as [Hin | Hout].
  - (* the slot exists: it is reused *)
    destruct Hpos as [Hi | [_ [Hnil Hle]]].
    2:{ subst rest. rewrite Hsplit, app_nil_r in Hin. lia. }
    destruct rest as [| r rest'].
    { rewrite Hsplit, app_nil_r in Hin. lia. }
    rewrite Hsplit, <- Hi, nth_error_middle, replace_nth_app.
    exists (done ++ [activate random normalize levelConfig (randomCursor w) r]), rest'.
    cbn [targets targetModel set_randomCursor set_targets].
    split; [rewrite <- app_assoc; reflexivity |].
    split; [apply Forall_app; split;
            [exact Hdone | constructor; [apply activate_activated | constructor]] |].
    split; [inversion Hrest; assumption |].
    split.
    + rewrite Hsplit in Hlen. rewrite !length_app in *. cbn [List.length] in *.
      destruct (targetModel w); lia.
    + left. rewrite length_app. cbn. lia.
  - destruct (targetModel w) eqn:Hmodel.
    + (* no slot left, the model is cloned *)
      destruct Hpos as [Hi | [Hno _]]; [| discriminate].
      assert (Hnil : rest = []).
      { destruct rest as [| r rest']; [reflexivity |].
        rewrite Hsplit, length_app in Hout. cbn in Hout. lia. }
      subst rest. rewrite app_nil_r in Hsplit.
      exists (done ++ [activate random normalize levelConfig (randomCursor w) clone]), [].
      cbn [targets targetModel set_randomCursor set_targets]. rewrite Hmodel.
      split; [rewrite Hsplit, app_nil_r; reflexivity |].
      split; [apply Forall_app; split;
              [exact Hdone | constructor; [apply activate_activated | constructor]] |].
      split; [constructor |].
      split.
      * rewrite Hsplit in *. rewrite length_app. cbn. lia.
      * left. rewrite length_app. cbn. lia.
    + (* no slot left and no model: the target is skipped *)
      assert (Hnil : rest = []).
      { destruct Hpos as [Hi | [_ [Hnil _]]]; [| exact Hnil].
        destruct rest as [| r rest']; [reflexivity |].
        rewrite Hsplit, length_app in Hout. cbn in Hout. lia. }
      subst rest.
      exists done, []. rewrite Hmodel.
      split; [exact Hsplit |]. split; [exact Hdone |]. split; [constructor |].
      split; [exact Hlen |].
      right. split; [reflexivity |]. split; [reflexivity |].
      rewrite Hsplit, app_nil_r in Hout. lia.
Qed.

Lemma loop_invariant (levelConfig : LevelConfig) (len0 n i : nat) (w : World) :
  poolInvariant levelConfig len0 i w ->
  poolInvariant levelConfig len0 (n + i)
    (initializeTargets_loop random normalize n levelConfig i w) /\
  targetModel (initializeTargets_loop random normalize n levelConfig i w) = targetModel w /\
  gm (initializeTargets_loop random normalize n levelConfig i w) = gm w /\
  bullets (initializeTargets_loop random normalize n levelConfig i w) = bullets w.
Proof.
  revert i w. induction n as [| n IH]; intros i w Hinv.
  - cbn. repeat split. exact Hinv.
  - cbn [initializeTargets_loop].
    destruct (IH (S i) (initializeTargets_body random normalize levelConfig i w)
                (body_invariant levelConfig len0 i w Hinv)) as [H1 [H2 [H3 H4]]].
    destruct (body_targetModel levelConfig i w) as [B1 [B2 B3]].
    replace (S n + i)%nat with (n + S i)%nat by lia.
    split; [exact H1 |]. split; [congruence |]. split; congruence.
Qed.

Lemma hideTargets_invariant (levelConfig : LevelConfig) (w : World) :
  poolInvariant levelConfig (List.length (targets w)) 0 (hideTargets w).
Proof.
  exists [], (map (set_visible false) (targets w)).
  cbn [targets hideTargets set_targets targetModel].
  split; [reflexivity |]. split; [constructor |].
  split; [apply Forall_forall; intros t Ht; apply in_map_iff in Ht;
          destruct Ht as [u [<- _]]; reflexivity |].
  split; [rewrite length_map; destruct (targetModel w); lia |].
  left. reflexivity.
Qed.

Lemma initializeTargets_pool (levelConfig : LevelConfig) (w : World) :
  let w' := initializeTargets random normalize levelConfig w in
  (forall t, In t (targets w') -> visible t = true -> activated levelConfig t) /\
  (targetModel w = true ->
   visibleCount (targets w') = targetCount levelConfig /\
   List.length (targets w')
   = Nat.max (List.length (targets w)) (targetCount levelConfig)) /\
  (targetModel w = false ->
   visibleCount (targets w')
   = Nat.min (targetCount levelConfig) (List.length (targets w)) /\
   List.length (targets w') = List.length (targets w)) /\
  gm w' = gm w /\ bullets w' = bullets w /\ targetModel w' = targetModel w.
Proof.
  intros w'. unfold initializeTargets in w'.
  destruct (loop_invariant levelConfig (List.length (targets w))
              (targetCount levelConfig) 0 (hideTargets w)
              (hideTargets_invariant levelConfig w))
    as [[done [rest [Hsplit [Hdone [Hrest [Hlen Hpos]]]]]] [Hm [Hg Hb]]].
  fold w' in Hsplit, Hlen, Hpos, Hm, Hg, Hb.
  cbn [hideTargets set_targets targetModel gm bullets] in Hm, Hg, Hb.
  rewrite Nat.add_0_r in Hlen, Hpos.
  pose proof (visibleCount_split levelConfig done rest Hdone Hrest) as Hcount.
  rewrite <- Hsplit in Hcount.
  split; [| split; [| split; [| split; [| split]]]]; try assumption.
  - intros t Hin Hvis. rewrite Hsplit in Hin. apply in_app_or in Hin.
    destruct Hin as [Hin | Hin].
    + rewrite Forall_forall in Hdone. apply Hdone. exact Hin.
    + rewrite Forall_forall in Hrest. rewrite (Hrest t Hin) in Hvis. discriminate.
  - intros Hmodel. rewrite Hm, Hmodel in Hlen, Hpos.
    destruct Hpos as [Hi | [Hno _]]; [| discriminate].
    split; [rewrite Hcount; exact Hi | exact Hlen].
  - intros Hmodel. rewrite Hm, Hmodel in Hlen.
    split; [| exact Hlen].
    rewrite Hcount. rewrite Hsplit, length_app in Hlen.
    destruct Hpos as [Hi | [_ [Hnil Hle]]].
    + lia.
    + subst rest. cbn in Hlen. lia.
Qed.

End Pool.

(** C8 (as stated, refuted).  Level 0 asks for three targets; with an empty
    pool and the target model not yet loaded, [initializeTargets] skips all
    three: no target is active afterwards. *)
Lemma initializeTargets_skips_without_model :
  exists levelConfig,
    item LEVELS 0 = Some levelConfig /\
    targetCount levelConfig = 3%nat /\
    targets (initializeTargets halfRandom normalizeNull levelConfig (arena 0 [] [] false))
    = [] /\
    visibleCount
      (targets (initializeTargets halfRandom normalizeNull levelConfig
                  (arena 0 [] [] false))) = 0%nat.
Proof.
  eexists. split; [reflexivity |]. repeat split.
Qed.

(** C8 (amended).  [initializeTargets(levelConfig)] hides every target of
    the pool and then activates the pool slots [0 .. targetCount).  When
    the target model is loaded, missing slots are allocated on demand and
    exactly [targetCount] targets are active afterwards (the pool has
    [max(pool size, targetCount)] slots).  When the model is not loaded,
    missing slots are skipped: [min(targetCount, pool size)] targets are
    active and the pool keeps its size.  Every active target has its
    position within x in [-5,5], y in [1,3], z in [-10,-5],
    [moveSpeed = targetSpeed] and [isMoving = movingTargets] of the level.
    [Math.random()] is taken to return values in [0,1). *)
Theorem initializeTargets_spec :
  forall (random : nat -> Q) (normalize : Vector3 -> Vector3)
         (levelConfig : LevelConfig) (w : World),
    (forall n, (0 <= random n < 1)%Q) ->
    let w' := initializeTargets random normalize levelConfig w in
    Forall (fun t => visible t = false) (targets (hideTargets w)) /\
    (forall t, In t (targets w') -> visible t = true -> activated levelConfig t) /\
    (targetModel w = true ->
     visibleCount (targets w') = targetCount levelConfig /\
     List.length (targets w')
     = Nat.max (List.length (targets w)) (targetCount levelConfig)) /\
    (targetModel w = false ->
     visibleCount (targets w')
     = Nat.min (targetCount levelConfig) (List.length (targets w)) /\
     List.length (targets w') = List.length (targets w)) /\
    gm w' = gm w /\ bullets w' = bullets w /\ targetModel w' = targetModel w.
Proof.
  intros random normalize levelConfig w Hrandom w'.
  split.
  - apply Forall_forall. intros t Ht. cbn in Ht.
    apply in_map_iff in Ht. destruct Ht as [u [<- _]]. reflexivity.
  - apply (initializeTargets_pool random normalize Hrandom levelConfig w).
Qed.

Lemma halfRandom_range : forall n, (0 <= halfRandom n < 1)%Q.
Proof. intros n. unfold halfRandom, Qle, Qlt. simpl. lia. Qed.

(** The theorem for level 5 (seven targets), on a pool of two targets with
    the model loaded and with the model missing. *)
Lemma initializeTargets_spec_witness :
  let levelConfig := mkLevel 5 "Master" "Ultimate challenge" 7 (5 # 2) 300 90 true in
  let pool := [targetAt (mkVector3 0 0 0); targetAt (mkVector3 1 1 1)] in
  visibleCount
    (targets (initializeTargets halfRandom normalizeNull levelConfig (arena 0 [] pool true)))
  = 7%nat /\
  visibleCount
    (targets (initializeTargets halfRandom normalizeNull levelConfig (arena 0 [] pool false)))
  = 2%nat.
Proof.
  intros levelConfig pool. split.
  - destruct (initializeTargets_spec halfRandom normalizeNull levelConfig
                (arena 0 [] pool true) halfRandom_range) as [_ [_ [Hmodel _]]].
    exact (proj1 (Hmodel eq_refl)).
  - destruct (initializeTargets_spec halfRandom normalizeNull levelConfig
                (arena 0 [] pool false) halfRandom_range) as [_ [_ [_ [Hnone _]]]].
    exact (proj1 (Hnone eq_refl)).
Defined.

(** ** One frame *)

Lemma forEach_invariant {S A : Type} (P : S -> Prop) (l : list A) (f : A -> M S unit) :
  (forall a s, P s -> exists s' e, f a s = Some (tt, s', e) /\ P s') ->
  forall s, P s -> exists s' e, forEach l f s = Some (tt, s', e) /\ P s'.
Proof.
  intros Hf. induction l as [| a rest IH]; intros s Hs.
  - exists s, []. split; [reflexivity | exact Hs].
  - destruct (Hf a s Hs) as [s1 [e1 [H1 P1]]].
    destruct (IH s1 P1) as [s2 [e2 [H2 P2]]].
    exists s2, (e1 ++ e2). cbn [forEach]. unfold bind. rewrite H1, H2.
    split; [reflexivity | exact P2].
Qed.

Lemma addScore_quiet (p : Z) (g g' : GameManager) (evs : list Event) :
  addScore p g = Some (tt, g', evs) -> Forall quiet evs.
Proof.
  destruct (getCurrentLevelConfig_some g) as [cfg [Hcfg _]].
  rewrite (addScore_run p g cfg Hcfg). cbv zeta.
  destruct (score g + p >=? scoreToComplete cfg).
  - destruct (item (highScores g) (currentLevel g)) as [best |].
    + destruct (score g + p >? best); intros H; injection H as <- <-;
        repeat constructor.
    + intros H; injection H as <- <-; repeat constructor.
  - intros H; injection H as <- <-; repeat constructor.
Qed.

Lemma addScore_settled (p : Z) (g g' : GameManager) (evs : list Event) :
  addScore p g = Some (tt, g', evs) -> settled g'.
Proof.
  destruct (getCurrentLevelConfig_some g) as [cfg [Hcfg _]].
  rewrite (addScore_run p g cfg Hcfg). cbv zeta.
  destruct (Z.geb_spec (score g + p) (scoreToComplete cfg)) as [Hdone | Hnot].
  - assert (Hc : forall hs, settled (completed g (score g + p) hs))
      by (intros hs cfg' _ _; reflexivity).
    destruct (item (highScores g) (currentLevel g)) as [best |].
    + destruct (score g + p >? best); intros H; injection H as <- <-; apply Hc.
    + intros H; injection H as <- <-; apply Hc.
  - intros H; injection H as <- <-.
    intros cfg' Hcfg' Hge.
    change (getCurrentLevelConfig (set_score (score g + p) g))
      with (getCurrentLevelConfig g) in Hcfg'.
    rewrite Hcfg in Hcfg'. injection Hcfg' as <-.
    cbn [score set_score] in Hge. lia.
Qed.

Lemma updateTime_returns (delta : Q) (g : GameManager) :
  exists g' evs, updateTime delta g = Some (tt, g', evs) /\ Forall quiet evs.
Proof.
  destruct (GameState_eqb (state g) PLAYING) eqn:Hst.
  - assert (Hp : state g = PLAYING) by (destruct (state g); try discriminate; reflexivity).
    rewrite (updateTime_playing delta g Hp). cbv zeta.
    destruct (Qle_bool (timeRemaining g - delta) 0);
      eexists; eexists; (split; [reflexivity | repeat constructor]).
  - assert (Hp : state g <> PLAYING) by (intros Hp; rewrite Hp in Hst; discriminate).
    rewrite (updateTime_not_playing delta g Hp).
    eexists; eexists; (split; [reflexivity | constructor]).
Qed.

Section Frame.

Variable random : nat -> Q.
Variable normalize : Vector3 -> Vector3.

Lemma observe_returns (e : Event) (w : World) :
  exists w',
    observe random normalize e w = Some (tt, w', []) /\
    gm w' = gm w /\
    (quiet e -> w' = w).
Proof.
  destruct (getCurrentLevelConfig_some (gm w)) as [cfg [Hcfg _]].
  destruct e as [[| | |] | s | t | s | s hs]; cbn [observe onGameStateChange quiet];
    unfold bind, get, modify, defined, ret; rewrite ?Hcfg;
    eexists;
    (split; [reflexivity |
             split; [first [reflexivity | apply initializeTargets_gm] | tauto]]).
Qed.

Lemma observers_return (evs : list Event) (w : World) :
  exists w' evs',
    forEach evs (observe random normalize) w = Some (tt, w', evs') /\
    gm w' = gm w /\
    (Forall quiet evs -> w' = w).
Proof.
  revert w. induction evs as [| e rest IH]; intros w.
  - exists w, []. repeat split.
  - destruct (observe_returns e w) as [w1 [H1 [G1 Q1]]].
    destruct (IH w1) as [w2 [e2 [H2 [G2 Q2]]]].
    exists w2, ([] ++ e2). cbn [forEach]. unfold bind. rewrite H1, H2.
    split; [reflexivity |]. split; [congruence |].
    intros Hq. inversion Hq; subst.
    rewrite (Q2 ltac:(assumption)). apply Q1. assumption.
Qed.

Lemma onManager_returns {A : Type} (m : M GameManager A) (w : World)
    (a : A) (g' : GameManager) (evs : list Event) :
  m (gm w) = Some (a, g', evs) ->
  exists w',
    onManager random normalize m w = Some (a, w', evs) /\
    gm w' = g' /\
    (Forall quiet evs -> w' = set_gm g' w).
Proof.
  intros Hm. unfold onManager. rewrite Hm.
  destruct (observers_return evs (set_gm g' w)) as [w' [evs' [H [G Q]]]].
  rewrite H. exists w'. split; [reflexivity |]. split; [exact G | exact Q].
Qed.

Lemma tickTimer_run (delta : Q) (w : World) :
  exists g' evs,
    updateTime delta (gm w) = Some (tt, g', evs) /\
    tickTimer random normalize delta w = Some (tt, set_gm g' w, evs).
Proof.
  destruct (updateTime_returns delta (gm w)) as [g' [evs [Hrun Hq]]].
  exists g', evs. split; [exact Hrun |].
  destruct (onManager_returns (updateTime delta) w tt g' evs Hrun) as [w' [H [_ Q]]].
  unfold tickTimer. rewrite H, (Q Hq). reflexivity.
Qed.

Lemma hitTest_step (g0 : GameManager) (bullet : Bullet) (it : nat * Target) (w : World) :
  consistent g0 w ->
  exists w' e, hitTest random normalize bullet it w = Some (tt, w', e) /\ consistent g0 w'.
Proof.
  intros Hw. destruct it as [i target]. unfold hitTest.
  destruct (Qlt_bool (distanceToSquared (position target) (bulletPosition bullet)) 1).
  - unfold bind, modify.
    match goal with
    | |- context [onManager random normalize (addScore 10) ?w1] => set (w1' := w1)
    end.
    destruct (addScore_returns 10 (gm w1')) as [g' [evs [Hrun _]]].
    destruct (onManager_returns (addScore 10) w1' tt g' evs Hrun) as [w' [H [G _]]].
    rewrite H. exists w'. eexists. split; [reflexivity |].
    right. rewrite G. eapply addScore_settled. exact Hrun.
  - exists w, []. split; [reflexivity | exact Hw].
Qed.

Lemma updateBullet_step (g0 : GameManager) (delta : Q) (bullet : Bullet) (w : World) :
  consistent g0 w ->
  exists w' e,
    updateBullet random normalize delta bullet w = Some (tt, w', e) /\ consistent g0 w'.
Proof.
  intros Hw. unfold updateBullet.
  destruct (Qlt_bool (timeToLive bullet) 0).
  - eexists. eexists. split; [reflexivity | exact Hw].
  - unfold bind at 1 2. unfold modify, get.
    match goal with
    | |- context [forEach ?l ?f ?w1] =>
        destruct (forEach_invariant (consistent g0) l f
                    (fun a s => hitTest_step g0 _ a s) w1 Hw) as [w' [e [H K]]];
        rewrite H
    end.
    exists w'. eexists. split; [reflexivity | exact K].
Qed.

Lemma updateBullets_step (delta : Q) (w : World) :
  exists w' e,
    updateBullets random normalize delta w = Some (tt, w', e) /\
    consistent (gm w) w' /\
    (state (gm w) <> PLAYING -> w' = w /\ e = []).
Proof.
  unfold updateBullets, bind, get.
  destruct (GameState_eqb (state (gm w)) PLAYING) eqn:Hst; cbn [negb].
  - destruct (forEach_invariant (consistent (gm w)) (bullets w)
                (updateBullet random normalize delta)
                (fun a s => updateBullet_step (gm w) delta a s) w (or_introl eq_refl))
      as [w' [e [H K]]].
    rewrite H. exists w'. eexists. split; [reflexivity |]. split; [exact K |].
    intros Hp. destruct (state (gm w)); try discriminate. contradiction.
  - exists w, []. split; [reflexivity |]. split; [left; reflexivity |].
    intros _. split; reflexivity.
Qed.

Lemma updateTargets_step (delta : Q) (w : World) :
  exists w',
    updateTargets delta w = Some (tt, w', []) /\
    gm w' = gm w /\
    (state (gm w) <> PLAYING -> w' = w).
Proof.
  unfold updateTargets, bind, get.
  destruct (getCurrentLevelConfig_some (gm w)) as [cfg [Hcfg _]].
  destruct (GameState_eqb (state (gm w)) PLAYING) eqn:Hst; cbn [negb].
  - rewrite Hcfg. cbn [defined]. unfold ret at 1.
    destruct (movingTargets cfg); cbn [negb].
    + eexists. split; [reflexivity |]. split; [reflexivity |].
      intros Hp. destruct (state (gm w)); try discriminate. contradiction.
    + exists w. split; [reflexivity |]. split; [reflexivity |]. intros _. reflexivity.
  - exists w. split; [reflexivity |]. split; [reflexivity |]. intros _. reflexivity.
Qed.

Lemma handleBlasterInput_step (fire : option Shot) (w : World) :
  exists w',
    handleBlasterInput fire w = Some (tt, w', []) /\
    gm w' = gm w /\ targets w' = targets w /\
    (state (gm w) <> PLAYING -> w' = w).
Proof.
  unfold handleBlasterInput, bind, get.
  destruct (GameState_eqb (state (gm w)) PLAYING) eqn:Hst; cbn [negb].
  - destruct fire as [s |].
    + eexists. split; [reflexivity |]. repeat split.
      intros Hp. destruct (state (gm w)); try discriminate. contradiction.
    + exists w. repeat split.
  - exists w. repeat split.
Qed.

Lemma handleUIInteraction_returns (click : option Click) (w : World) :
  exists w' e, handleUIInteraction random normalize click w = Some (tt, w', e).
Proof.
  destruct click as [[index | | | |] |]; cbn [handleUIInteraction].
  - destruct (runOp_step (OpStartLevel index) (gm w)) as [g' [evs [Hrun _]]].
    destruct (onManager_returns (startLevel index) w tt g' evs Hrun) as [w' [H _]].
    exists w', evs. exact H.
  - destruct (toggleLeftHandedMode (gm w)) as [[[b g'] evs] |] eqn:Hrun;
      [| discriminate Hrun].
    destruct (onManager_returns toggleLeftHandedMode w b g' evs Hrun) as [w' [H _]].
    unfold bind. rewrite H. eexists. eexists. reflexivity.
  - destruct (runOp_step OpNextLevel (gm w)) as [g' [evs [Hrun _]]].
    destruct (onManager_returns nextLevel w tt g' evs Hrun) as [w' [H _]].
    exists w', evs. exact H.
  - destruct (runOp_step OpGoToMenu (gm w)) as [g' [evs [Hrun _]]].
    destruct (onManager_returns goToMenu w tt g' evs Hrun) as [w' [H _]].
    exists w', evs. exact H.
  - destruct (runOp_step OpRestartLevel (gm w)) as [g' [evs [Hrun _]]].
    destruct (onManager_returns restartLevel w tt g' evs Hrun) as [w' [H _]].
    exists w', evs. exact H.
  - exists w, []. reflexivity.
Qed.

End Frame.

(** C9. One [onFrame] always returns, and runs in this order: the UI
    click, then the timer decrement ([updateTime] on the controller, which
    leaves bullets and targets as they are), then the blaster input and the
    arena advancement ([updateBullets], [updateTargets]) on the state the
    timer left.  When the state is not Playing after the timer decrement,
    nothing is advanced: the world is returned as the timer left it.  The
    scoring calls are made inside the advancement, before [onFrame]
    returns, and when it returns either the advancement has not touched the
    controller, or the controller is settled: a score at or above the goal
    of the current level comes with state LevelComplete. *)
Theorem onFrame_spec :
  forall (random : nat -> Q) (normalize : Vector3 -> Vector3)
         (delta : Q) (click : option Click) (fire : option Shot) (w : World),
    exists w1 e1 g2 e2 w3 e3,
      handleUIInteraction random normalize click w = Some (tt, w1, e1) /\
      updateTime delta (gm w1) = Some (tt, g2, e2) /\
      tickTimer random normalize delta w1 = Some (tt, set_gm g2 w1, e2) /\
      (handleBlasterInput fire ;; advanceArena random normalize delta) (set_gm g2 w1)
      = Some (tt, w3, e3) /\
      onFrame random normalize delta click fire w = Some (tt, w3, e1 ++ e2 ++ e3) /\
      (state g2 <> PLAYING -> w3 = set_gm g2 w1 /\ e3 = []) /\
      (gm w3 = g2 \/ settled (gm w3)) /\
      (score (gm w3) <> score g2 -> settled (gm w3)).
Proof.
  intros random normalize delta click fire w.
  destruct (handleUIInteraction_returns random normalize click w) as [w1 [e1 H1]].
  destruct (tickTimer_run random normalize delta w1) as [g2 [e2 [Hg2 H2]]].
  destruct (handleBlasterInput_step fire (set_gm g2 w1)) as [wb [Hb [Gb [_ Sb]]]].
  destruct (updateBullets_step random normalize delta wb) as [wc [ec [Hc [Kc Sc]]]].
  destruct (updateTargets_step delta wc) as [w3 [Ht [Gt St]]].
  assert (Harena :
    (handleBlasterInput fire ;; advanceArena random normalize delta) (set_gm g2 w1)
    = Some (tt, w3, [] ++ ec ++ [])).
  { unfold advanceArena, bind. rewrite Hb, Hc, Ht. reflexivity. }
  assert (Hsettled : gm w3 = g2 \/ settled (gm w3)).
  { rewrite Gt. destruct Kc as [Kc | Kc]; [left | right; exact Kc].
    rewrite Kc, Gb. reflexivity. }
  exists w1, e1, g2, e2, w3, ([] ++ ec ++ []).
  split; [exact H1 |]. split; [exact Hg2 |]. split; [exact H2 |].
  split; [exact Harena |].
  split.
  - unfold onFrame. unfold bind at 1. rewrite H1.
    unfold bind at 1. rewrite H2.
    fold (@bind World unit unit (handleBlasterInput fire)
            (fun _ => advanceArena random normalize delta)).
    rewrite Harena. reflexivity.
  - split; [| split; [exact Hsettled |]].
    + intros Hst.
      assert (Hwb : wb = set_gm g2 w1) by (apply Sb; exact Hst).
      subst wb.
      destruct (Sc Hst) as [Hwc Hec]. subst wc ec.
      rewrite (St Hst). split; reflexivity.
    + intros Hscore. destruct Hsettled as [Hsame | Hs]; [| exact Hs].
      rewrite Hsame in Hscore. contradiction.
Qed.

(** The theorem on a frame of level 0 with 20 points scored, in which a
    bullet reaches a target: the score becomes 30, the goal of the level,
    and the state is LevelComplete when the frame returns. *)
Lemma onFrame_spec_witness :
  let bullet := mkBullet "b" (mkVector3 0 1 (-5 # 1)) (mkVector3 0 0 (-10 # 1)) 1 in
  let w := arena 20 [bullet] [targetAt (mkVector3 0 1 (-6 # 1))] true in
  exists w3 evs,
    onFrame halfRandom normalizeNull (1 # 10) None None w = Some (tt, w3, evs) /\
    score (gm w3) = 30 /\
    state (gm w3) = LEVEL_COMPLETE.
Proof.
  intros bullet w.
  destruct (onFrame_spec halfRandom normalizeNull (1 # 10) None None w)
    as [w1 [e1 [g2 [e2 [w3 [e3 [H1 [H2 [_ [_ [Hrun [_ [_ Hset]]]]]]]]]]]]].
  injection H1 as <- <-.
  vm_compute in H2. injection H2 as <- <-.
  exists w3. eexists.
  split; [exact Hrun |].
  vm_compute in Hrun. injection Hrun as <- _.
  split; [reflexivity |].
  apply (Hset ltac:(simpl; discriminate)
           (mkLevel 1 "Beginner" "Learn the basics" 3 0 30 60 false)).
  - reflexivity.
  - simpl. lia.
Defined.

(** * Further properties of the controller *)

Lemma LEVELS_positive (cfg : LevelConfig) :
  In cfg LEVELS -> (0 < timeLimit cfg)%Q /\ 0 < scoreToComplete cfg.
Proof.
  intros Hin. cbn in Hin.
  repeat (destruct Hin as [<- | Hin]; [split; reflexivity |]).
  contradiction.
Qed.

(** What one controller method can do to the controller. *)
Lemma runOp_cases (o : Op) (g g' : GameManager) (evs : list Event) :
  runOp o g = Some (tt, g', evs) ->
  (exists j cfg,
     0 <= j < LEVELS_length /\ item LEVELS j = Some cfg /\ In cfg LEVELS /\
     g' = mkGameManager PLAYING j 0 (timeLimit cfg) (settings g) (highScores g) /\
     evs = [StateChanged PLAYING; ScoreChanged 0]) \/
  (exists p, addScore p g = Some (tt, g', evs)) \/
  (exists d, updateTime d g = Some (tt, g', evs)) \/
  (g' = set_state MENU g /\ evs = [StateChanged MENU]) \/
  (exists kv,
     g' = set_settings (assignSetting kv (settings g)) g /\
     evs = [Saved (settings g') (highScores g'); SettingsChanged (settings g')]).
Proof.
  assert (Hstart : forall i,
    startLevel i g = Some (tt, g', evs) ->
    exists j cfg,
      0 <= j < LEVELS_length /\ item LEVELS j = Some cfg /\ In cfg LEVELS /\
      g' = mkGameManager PLAYING j 0 (timeLimit cfg) (settings g) (highScores g) /\
      evs = [StateChanged PLAYING; ScoreChanged 0]).
  { intros i Hrun.
    destruct (startLevel_returns i g) as [j [cfg [Hj [Hcfg Hs]]]].
    rewrite Hs in Hrun. injection Hrun as <- <-.
    exists j, cfg. repeat split; try tauto.
    unfold item in Hcfg. destruct (j <? 0); [discriminate |].
    eapply nth_error_In. exact Hcfg. }
  destruct o as [i | p | d | | | | kv |]; cbn [runOp]; intros Hrun.
  - left. apply (Hstart i Hrun).
  - right. left. exists p. exact Hrun.
  - right. right. left. exists d. exact Hrun.
  - unfold nextLevel, bind, get in Hrun.
    destruct (currentLevel g <? LEVELS_length - 1).
    + left. apply (Hstart (currentLevel g + 1)).
      destruct (startLevel (currentLevel g + 1) g) as [[[[] g1] e1] |];
        [| discriminate]. exact Hrun.
    + right. right. right. left.
      cbn in Hrun. injection Hrun as <- <-. split; reflexivity.
  - right. right. right. left.
    cbn in Hrun. injection Hrun as <- <-. split; reflexivity.
  - left. unfold restartLevel, bind, get in Hrun.
    apply (Hstart (currentLevel g)).
    destruct (startLevel (currentLevel g) g) as [[[[] g1] e1] |];
      [| discriminate]. exact Hrun.
  - right. right. right. right. exists kv.
    cbn in Hrun. injection Hrun as <- <-. split; reflexivity.
  - right. right. right. right.
    exists (SetLeftHandedMode (negb (leftHandedMode (settings g)))).
    cbn in Hrun. injection Hrun as <- <-. split; reflexivity.
Qed.

(** A property kept by every method is kept by every sequence of them, and
    the sequence returns. *)
Lemma runOps_invariant (P : GameManager -> Prop) :
  (forall o g g' evs, P g -> runOp o g = Some (tt, g', evs) -> P g') ->
  forall os g, P g -> exists g' evs, runOps os g = Some (tt, g', evs) /\ P g'.
Proof.
  intros Hstep os. induction os as [| o rest IH]; intros g Hg.
  - exists g, []. split; [reflexivity | exact Hg].
  - destruct (runOp_step o g) as [g1 [e1 [H1 _]]].
    destruct (IH g1 (Hstep o g g1 e1 Hg H1)) as [g2 [e2 [H2 P2]]].
    exists g2, (e1 ++ e2). cbn [runOps]. unfold bind. rewrite H1, H2.
    split; [reflexivity | exact P2].
Qed.

(** X1. Every sequence of controller methods returns and keeps the
    controller well-formed: [currentLevel] stays an index of the catalog
    and the high-score table keeps one entry per level. *)
Theorem wellFormed_preserved :
  forall (os : list Op) (g : GameManager),
    wellFormed g ->
    exists g' evs, runOps os g = Some (tt, g', evs) /\ wellFormed g'.
Proof.
  intros os g Hwf.
  destruct (runOps_steps os g) as [g' [evs [Hrun [_ Hkeep]]]].
  exists g', evs. split; [exact Hrun | exact (Hkeep Hwf)].
Qed.

Lemma wellFormed_preserved_witness :
  exists g' evs,
    runOps [OpStartLevel 9; OpAddScore 40; OpNextLevel; OpUpdateTime 100; OpRestartLevel]
      (newGameManager Absent Absent) = Some (tt, g', evs) /\
    wellFormed g'.
Proof.
  apply (wellFormed_preserved
           [OpStartLevel 9; OpAddScore 40; OpNextLevel; OpUpdateTime 100; OpRestartLevel]
           (newGameManager Absent Absent)).
  split; [simpl; rewrite LEVELS_length_eq; lia | reflexivity].
Defined.

Lemma updateTime_nonnegative (d : Q) (g g' : GameManager) (evs : list Event) :
  (0 <= timeRemaining g)%Q ->
  updateTime d g = Some (tt, g', evs) -> (0 <= timeRemaining g')%Q.
Proof.
  intros Ht.
  destruct (GameState_eqb (state g) PLAYING) eqn:Hst.
  - assert (Hp : state g = PLAYING) by (destruct (state g); try discriminate; reflexivity).
    rewrite (updateTime_playing d g Hp). cbv zeta.
    destruct (Qle_bool (timeRemaining g - d) 0) eqn:E;
      intros H; injection H as <- <-; cbn.
    + apply Qle_refl.
    + apply Qlt_le_weak. apply Qle_bool_false. exact E.
  - assert (Hp : state g <> PLAYING) by (intros Hp; rewrite Hp in Hst; discriminate).
    rewrite (updateTime_not_playing d g Hp).
    intros H; injection H as <- <-. exact Ht.
Qed.

Lemma runOp_timeRemaining (o : Op) (g g' : GameManager) (evs : list Event) :
  (0 <= timeRemaining g)%Q ->
  runOp o g = Some (tt, g', evs) -> (0 <= timeRemaining g')%Q.
Proof.
  intros Ht Hrun.
  destruct (runOp_cases o g g' evs Hrun)
    as [[j [cfg [_ [_ [Hin [-> _]]]]]] | [[p Hp] | [[d Hd] | [[-> _] | [kv [-> _]]]]]].
  - cbn. apply Qlt_le_weak. apply (LEVELS_positive cfg Hin).
  - destruct (addScore_returns p g) as [g2 [e2 [H2 [_ [_ [Htime _]]]]]].
    rewrite Hp in H2. injection H2 as <- <-. rewrite Htime. exact Ht.
  - eapply updateTime_nonnegative; eassumption.
  - exact Ht.
  - exact Ht.
Qed.


(** X2. The stored [timeRemaining] never becomes negative: from a
    controller whose time is not negative, every sequence of controller
    methods, with any arguments, ends with a time that is not negative. *)
Theorem timeRemaining_nonnegative :
  forall (os : list Op) (g : GameManager),
    (0 <= timeRemaining g)%Q ->
    exists g' evs,
      runOps os g = Some (tt, g', evs) /\ (0 <= timeRemaining g')%Q.
Proof.
  apply (runOps_invariant (fun g => (0 <= timeRemaining g)%Q)).
  intros o g g' evs. apply runOp_timeRemaining.
Qed.

Lemma timeRemaining_nonnegative_witness :
  exists g' evs,
    runOps [OpStartLevel 2; OpUpdateTime 50; OpUpdateTime (-7 # 2); OpUpdateTime 1]
      (newGameManager Absent Absent) = Some (tt, g', evs) /\
    (0 <= timeRemaining g')%Q.
Proof.
  apply (timeRemaining_nonnegative
           [OpStartLevel 2; OpUpdateTime 50; OpUpdateTime (-7 # 2); OpUpdateTime 1]
           (newGameManager Absent Absent)).
  unfold Qle. simpl. lia.
Defined.

Lemma runOp_belowGoal (o : Op) (g g' : GameManager) (evs : list Event) :
  belowGoal g -> runOp o g = Some (tt, g', evs) -> belowGoal g'.
Proof.
  intros Hg Hrun.
  destruct (runOp_cases o g g' evs Hrun)
    as [[j [cfg [Hj [Hcfg [Hin [-> _]]]]]] | [[p Hp] | [[d Hd] | [[-> _] | [kv [-> _]]]]]].
  - intros _ cfg' Hcfg'. unfold getCurrentLevelConfig in Hcfg'.
    cbn [currentLevel] in Hcfg'.
    rewrite (out_of_range_false j Hj), Hcfg in Hcfg'. injection Hcfg' as <-.
    cbn. apply (LEVELS_positive cfg Hin).
  - destruct (getCurrentLevelConfig_some g) as [cfg [Hcfg _]].
    rewrite (addScore_run p g cfg Hcfg) in Hp. cbv zeta in Hp.
    destruct (Z.geb_spec (score g + p) (scoreToComplete cfg)) as [Hdone | Hnot].
    + assert (Hst : state g' = LEVEL_COMPLETE).
      { destruct (item (highScores g) (currentLevel g)) as [best |];
          [destruct (score g + p >? best) |]; injection Hp as <- <-; reflexivity. }
      intros Hplay. rewrite Hst in Hplay. discriminate.
    + injection Hp as <- <-. intros _ cfg' Hcfg'.
      change (getCurrentLevelConfig (set_score (score g + p) g))
        with (getCurrentLevelConfig g) in Hcfg'.
      rewrite Hcfg in Hcfg'. injection Hcfg' as <-. cbn. lia.
  - destruct (GameState_eqb (state g) PLAYING) eqn:Hst.
    + assert (Hp : state g = PLAYING) by (destruct (state g); try discriminate; reflexivity).
      rewrite (updateTime_playing d g Hp) in Hd. cbv zeta in Hd.
      destruct (Qle_bool (timeRemaining g - d) 0); injection Hd as <- <-.
      * intros Hplay. discriminate.
      * intros _ cfg' Hcfg'. apply (Hg Hp cfg' Hcfg').
    + assert (Hp : state g <> PLAYING) by (intros Hp; rewrite Hp in Hst; discriminate).
      rewrite (updateTime_not_playing d g Hp) in Hd. injection Hd as <- <-. exact Hg.
  - intros Hplay. discriminate.
  - exact Hg.
Qed.


(** X3. While a level is being played its goal has not been reached: from
    a controller where this holds (a fresh one is in the menu), it holds
    after every sequence of controller methods.  So a controller in state
    Playing never carries a score at or above [scoreToComplete]. *)
Theorem belowGoal_preserved :
  forall (os : list Op) (g : GameManager),
    belowGoal g ->
    exists g' evs, runOps os g = Some (tt, g', evs) /\ belowGoal g'.
Proof.
  apply (runOps_invariant belowGoal).
  intros o g g' evs. apply runOp_belowGoal.
Qed.

Lemma belowGoal_preserved_witness :
  exists g' evs,
    runOps [OpStartLevel 1; OpAddScore 70; OpAddScore 5; OpUpdateTime 3]
      (newGameManager Absent Absent) = Some (tt, g', evs) /\
    belowGoal g'.
Proof.
  apply (belowGoal_preserved
           [OpStartLevel 1; OpAddScore 70; OpAddScore 5; OpUpdateTime 3]
           (newGameManager Absent Absent)).
  intros Hplay. simpl in Hplay. discriminate.
Defined.

(** X5. [nextLevel], in whatever state it is called: when a level follows
    the current one it starts that level (state Playing, score 0, full
    time, settings and high scores kept); on the last level of the catalog
    it only changes the state to Menu. *)
Theorem nextLevel_spec :
  forall g : GameManager,
    0 <= currentLevel g ->
    (currentLevel g < LEVELS_length - 1 ->
     exists cfg,
       item LEVELS (currentLevel g + 1) = Some cfg /\
       nextLevel g =
         Some (tt,
               mkGameManager PLAYING (currentLevel g + 1) 0 (timeLimit cfg) (settings g)
                 (highScores g),
               [StateChanged PLAYING; ScoreChanged 0])) /\
    (LEVELS_length - 1 <= currentLevel g ->
     nextLevel g = Some (tt, set_state MENU g, [StateChanged MENU])).
Proof.
  intros g Hcur. split.
  - intros Hnext.
    assert (Hi : 0 <= currentLevel g + 1 < LEVELS_length) by lia.
    destruct (item_in_range LEVELS (currentLevel g + 1) Hi) as [cfg [Hcfg _]].
    exists cfg. split; [exact Hcfg |].
    unfold nextLevel, bind, get.
    destruct (Z.ltb_spec (currentLevel g) (LEVELS_length - 1)); [| lia].
    rewrite (startLevel_in_range (currentLevel g + 1) g cfg Hi Hcfg). reflexivity.
  - intros Hlast. unfold nextLevel, bind, get.
    destruct (Z.ltb_spec (currentLevel g) (LEVELS_length - 1)); [lia |].
    reflexivity.
Qed.

Lemma nextLevel_spec_witness :
  (exists g',
     exec nextLevel (mkGameManager LEVEL_COMPLETE 3 200 12 DEFAULT_SETTINGS [0; 0; 0; 200; 0])
     = Some g' /\ state g' = PLAYING /\ currentLevel g' = 4 /\ score g' = 0) /\
  exec nextLevel (mkGameManager LEVEL_COMPLETE 4 300 12 DEFAULT_SETTINGS [0; 0; 0; 0; 300])
  = Some (mkGameManager MENU 4 300 12 DEFAULT_SETTINGS [0; 0; 0; 0; 300]).
Proof.
  split.
  - destruct (proj1 (nextLevel_spec
                       (mkGameManager LEVEL_COMPLETE 3 200 12 DEFAULT_SETTINGS
                          [0; 0; 0; 200; 0])
                       ltac:(simpl; lia)))
      as [cfg [_ Hrun]].
    + rewrite LEVELS_length_eq. simpl. lia.
    + unfold exec. rewrite Hrun. eexists. split; [reflexivity |]. repeat split.
  - unfold exec.
    rewrite (proj2 (nextLevel_spec
                      (mkGameManager LEVEL_COMPLETE 4 300 12 DEFAULT_SETTINGS
                         [0; 0; 0; 0; 300])
                      ltac:(simpl; lia))).
    + reflexivity.
    + rewrite LEVELS_length_eq. simpl. lia.
Defined.

(** X6. [restartLevel] on a well-formed controller, in whatever state it
    is called, starts the current level again: state Playing, the same
    [currentLevel], score 0, the full time limit of the level, settings and
    high scores kept. *)
Theorem restartLevel_spec :
  forall g : GameManager,
    0 <= currentLevel g < LEVELS_length ->
    exists cfg,
      getCurrentLevelConfig g = Some cfg /\
      restartLevel g =
        Some (tt,
              mkGameManager PLAYING (currentLevel g) 0 (timeLimit cfg) (settings g)
                (highScores g),
              [StateChanged PLAYING; ScoreChanged 0]).
Proof.
  intros g Hcur.
  destruct (item_in_range LEVELS (currentLevel g) Hcur) as [cfg [Hcfg _]].
  exists cfg. split.
  - unfold getCurrentLevelConfig. rewrite (out_of_range_false _ Hcur). exact Hcfg.
  - unfold restartLevel, bind, get.
    rewrite (startLevel_in_range (currentLevel g) g cfg Hcur Hcfg). reflexivity.
Qed.

Lemma restartLevel_spec_witness :
  exists cfg,
    timeLimit cfg = 45%Q /\
    restartLevel (mkGameManager GAME_OVER 2 70 0 DEFAULT_SETTINGS [0; 0; 0; 0; 0])
    = Some (tt, mkGameManager PLAYING 2 0 (timeLimit cfg) DEFAULT_SETTINGS [0; 0; 0; 0; 0],
            [StateChanged PLAYING; ScoreChanged 0]).
Proof.
  destruct (restartLevel_spec
              (mkGameManager GAME_OVER 2 70 0 DEFAULT_SETTINGS [0; 0; 0; 0; 0]))
    as [cfg [Hcfg Hrun]].
  - rewrite LEVELS_length_eq. simpl. lia.
  - exists cfg. split; [| exact Hrun].
    vm_compute in Hcfg. injection Hcfg as <-. reflexivity.
Defined.

(** X7. [toggleLeftHandedMode] returns the new value of the setting, which
    is the negation of the old one; it switches the blaster hand, saves,
    notifies the settings observer, and touches nothing but the settings;
    toggling twice gives back the controller it started from. *)
Theorem toggleLeftHandedMode_spec :
  forall g : GameManager,
    exists g1,
      toggleLeftHandedMode g =
        Some (negb (isLeftHanded g), g1,
              [Saved (settings g1) (highScores g); SettingsChanged (settings g1)]) /\
      isLeftHanded g1 = negb (isLeftHanded g) /\
      getBlasterHand g1 <> getBlasterHand g /\
      musicVolume (settings g1) = musicVolume (settings g) /\
      sfxVolume (settings g1) = sfxVolume (settings g) /\
      state g1 = state g /\ currentLevel g1 = currentLevel g /\ score g1 = score g /\
      timeRemaining g1 = timeRemaining g /\ highScores g1 = highScores g /\
      exec toggleLeftHandedMode g1 = Some g.
Proof.
  intros [st cur sc t [lh mv sv] hs].
  eexists. split; [reflexivity |].
  unfold getBlasterHand, isLeftHanded, exec. cbn.
  rewrite negb_involutive.
  repeat split. destruct lh; discriminate.
Qed.

Lemma replace_nth_twice {A : Type} (a : list A) (n : nat) (u v : A) :
  replace_nth (replace_nth a n u) n v = replace_nth a n v.
Proof.
  revert n. induction a as [| hd tl IH]; intros n; [reflexivity |].
  destruct n; cbn; [reflexivity | rewrite IH; reflexivity].
Qed.

Lemma setItem_twice {A : Type} (a : list A) (i : Z) (u v : A) :
  setItem (setItem a i u) i v = setItem a i v.
Proof.
  unfold setItem. destruct (i <? 0); [reflexivity | apply replace_nth_twice].
Qed.

(** X9. Scoring accumulates: [addScore(a)] followed by [addScore(b)] with
    [b >= 0] leaves the controller exactly as [addScore(a + b)] does: the
    same score, state and high-score table, whether the goal is reached by
    the first call, by the second, or not at all. *)
Theorem addScore_compose :
  forall (a b : Z) (g : GameManager),
    0 <= b ->
    exec (addScore a ;; addScore b) g = exec (addScore (a + b)) g.
Proof.
  intros a b g Hb.
  destruct (getCurrentLevelConfig_some g) as [cfg [Hcfg _]].
  unfold exec, bind.
  rewrite (addScore_run (a + b) g cfg Hcfg), (addScore_run a g cfg Hcfg). cbv zeta.
  rewrite Z.add_assoc.
  destruct (Z.geb_spec (score g + a) (scoreToComplete cfg)) as [Ha | Ha].
  - destruct (Z.geb_spec (score g + a + b) (scoreToComplete cfg)) as [_ | Hab]; [| lia].
    destruct (item (highScores g) (currentLevel g)) as [best |] eqn:Hbest.
    + destruct (Z.gtb_spec (score g + a) best) as [Hgt | Hle].
      * cbv beta iota.
      match goal with
      | |- context [addScore b ?g1] => rewrite (addScore_run b g1 cfg Hcfg)
      end. cbv zeta.
        cbn [score completed currentLevel highScores settings timeRemaining].
        rewrite (setItem_same _ _ best _ Hbest).
        destruct (Z.geb_spec (score g + a + b) (scoreToComplete cfg)); [| lia].
        destruct (Z.gtb_spec (score g + a + b) best); [| lia].
        destruct (Z.gtb_spec (score g + a + b) (score g + a)).
        -- unfold completed. cbn. rewrite setItem_twice. reflexivity.
        -- assert (Hb0 : b = 0) by lia. subst b. rewrite Z.add_0_r. reflexivity.
      * cbv beta iota.
      match goal with
      | |- context [addScore b ?g1] => rewrite (addScore_run b g1 cfg Hcfg)
      end. cbv zeta.
        cbn [score completed currentLevel highScores settings timeRemaining].
        rewrite Hbest.
        destruct (Z.geb_spec (score g + a + b) (scoreToComplete cfg)); [| lia].
        destruct (score g + a + b >? best); reflexivity.
    + cbv beta iota.
      match goal with
      | |- context [addScore b ?g1] => rewrite (addScore_run b g1 cfg Hcfg)
      end. cbv zeta.
      cbn [score completed currentLevel highScores settings timeRemaining].
      rewrite Hbest.
      destruct (Z.geb_spec (score g + a + b) (scoreToComplete cfg)); [| lia].
      reflexivity.
  - cbv beta iota.
      match goal with
      | |- context [addScore b ?g1] => rewrite (addScore_run b g1 cfg Hcfg)
      end. cbv zeta.
    cbn [score set_score currentLevel highScores settings timeRemaining].
    destruct (score g + a + b >=? scoreToComplete cfg); [| reflexivity].
    destruct (item (highScores g) (currentLevel g)) as [best |]; [| reflexivity].
    destruct (score g + a + b >? best); reflexivity.
Qed.

Lemma addScore_compose_witness :
  exec (addScore 20 ;; addScore 10)
    (mkGameManager PLAYING 0 0 60 DEFAULT_SETTINGS [0; 0; 0; 0; 0])
  = Some (mkGameManager LEVEL_COMPLETE 0 30 60 DEFAULT_SETTINGS [30; 0; 0; 0; 0]).
Proof.
  rewrite (addScore_compose 20 10
             (mkGameManager PLAYING 0 0 60 DEFAULT_SETTINGS [0; 0; 0; 0; 0])).
  - reflexivity.
  - lia.
Defined.

(** * Further properties of the arena *)

Lemma visibleCount_hidden (ts : list Target) :
  visibleCount (map (set_visible false) ts) = 0%nat.
Proof.
  unfold visibleCount. induction ts as [| t rest IH]; [reflexivity | exact IH].
Qed.

(** X10. A click on a MENU button returns to the menu and tears the arena
    down at once: the state is Menu, [bullets] is empty and no target is
    visible; the pool keeps its targets, and score, level, time, settings
    and high scores are untouched. *)
Theorem menu_click_clears_arena :
  forall (random : nat -> Q) (normalize : Vector3 -> Vector3) (w : World),
    exists w',
      handleUIInteraction random normalize (Some ClickMenu) w
      = Some (tt, w', [StateChanged MENU]) /\
      gm w' = set_state MENU (gm w) /\
      bullets w' = [] /\
      visibleCount (targets w') = 0%nat /\
      List.length (targets w') = List.length (targets w) /\
      map position (targets w') = map position (targets w).
Proof.
  intros random normalize w. eexists.
  split; [reflexivity |].
  cbn. split; [reflexivity |]. split; [reflexivity |].
  split; [apply visibleCount_hidden |].
  split; [apply length_map |].
  rewrite map_map. reflexivity.
Qed.

(** X11. A click on a level button, with the target model loaded, starts
    that level in the arena as well: the state is Playing on the clicked
    level (level 0 for an index outside the catalog), exactly [targetCount]
    targets of that level are visible and each is placed as the level
    asks; bullets still in flight are not removed.  [Math.random()] is
    taken to return values in [0,1). *)
Theorem level_click_sets_arena :
  forall (random : nat -> Q) (normalize : Vector3 -> Vector3) (index : Z) (w : World),
    (forall n, (0 <= random n < 1)%Q) ->
    targetModel w = true ->
    exists w' cfg,
      handleUIInteraction random normalize (Some (ClickLevel index)) w
      = Some (tt, w', [StateChanged PLAYING; ScoreChanged 0]) /\
      state (gm w') = PLAYING /\
      currentLevel (gm w')
      = (if (index <? 0) || (index >=? LEVELS_length) then 0 else index) /\
      getCurrentLevelConfig (gm w') = Some cfg /\
      score (gm w') = 0 /\ timeRemaining (gm w') = timeLimit cfg /\
      visibleCount (targets w') = targetCount cfg /\
      (forall t, In t (targets w') -> visible t = true -> activated cfg t) /\
      bullets w' = bullets w.
Proof.
  intros random normalize index w Hrandom Hmodel.
  destruct (startLevel_returns index (gm w)) as [j [cfg [Hj [Hcfg Hrun]]]].
  assert (Hindex : j = if (index <? 0) || (index >=? LEVELS_length) then 0 else index).
  { destruct ((index <? 0) || (index >=? LEVELS_length)) eqn:E.
    - assert (Hout : index < 0 \/ LEVELS_length <= index).
      { apply orb_true_iff in E. destruct E as [E | E].
        - left. apply Z.ltb_lt. exact E.
        - right. apply Z.geb_le in E. lia. }
      rewrite (startLevel_coerced index (gm w) Hout) in Hrun.
      assert (H0 : 0 <= 0 < LEVELS_length) by (rewrite LEVELS_length_eq; lia).
      destruct (item_in_range LEVELS 0 H0) as [c0 [Hc0 _]].
      rewrite (startLevel_in_range 0 (gm w) c0 H0 Hc0) in Hrun.
      injection Hrun as Hj0 _. congruence.
    - assert (Hin : 0 <= index < LEVELS_length).
      { apply orb_false_iff in E. destruct E as [E1 E2].
        apply Z.ltb_ge in E1.
        destruct (Z.geb_spec index LEVELS_length); [discriminate | lia]. }
      destruct (item_in_range LEVELS index Hin) as [c1 [Hc1 _]].
      rewrite (startLevel_in_range index (gm w) c1 Hin Hc1) in Hrun.
      injection Hrun as Hj1 _. congruence. }
  set (g' := mkGameManager PLAYING j 0 (timeLimit cfg) (settings (gm w))
               (highScores (gm w))) in *.
  assert (Hcur : getCurrentLevelConfig g' = Some cfg).
  { unfold getCurrentLevelConfig. cbn [currentLevel g'].
    rewrite (out_of_range_false j Hj). exact Hcfg. }
  exists (initializeTargets random normalize cfg (set_gm g' w)), cfg.
  destruct (initializeTargets_pool random normalize Hrandom cfg (set_gm g' w))
    as [Hact [Hcount [_ [Hgm [Hbul _]]]]].
  split.
  - cbn [handleUIInteraction]. unfold onManager. rewrite Hrun.
    cbn [forEach observe onGameStateChange]. unfold bind, get, modify, defined, ret.
    cbn [gm set_gm]. rewrite Hcur. reflexivity.
  - rewrite Hgm. cbn [gm set_gm]. rewrite <- Hindex.
    split; [reflexivity |]. split; [reflexivity |]. split; [exact Hcur |].
    split; [reflexivity |]. split; [reflexivity |].
    split; [apply Hcount; exact Hmodel |].
    split; [exact Hact | exact Hbul].
Qed.

Lemma level_click_sets_arena_witness :
  exists w',
    exec (handleUIInteraction halfRandom normalizeNull (Some (ClickLevel 4)))
      (mkWorld (newGameManager Absent Absent) [] [] true 0) = Some w' /\
    state (gm w') = PLAYING /\ currentLevel (gm w') = 4 /\
    visibleCount (targets w') = 7%nat.
Proof.
  destruct (level_click_sets_arena halfRandom normalizeNull 4
              (mkWorld (newGameManager Absent Absent) [] [] true 0)
              halfRandom_range eq_refl)
    as [w' [cfg [Hrun [Hst [Hcur [Hcfg [_ [_ [Hcount _]]]]]]]]].
  exists w'. unfold exec. rewrite Hrun.
  split; [reflexivity |]. split; [exact Hst |]. split; [exact Hcur |].
  rewrite Hcount.
  unfold getCurrentLevelConfig in Hcfg. rewrite Hcur in Hcfg.
  vm_compute in Hcfg. injection Hcfg as <-. reflexivity.
Defined.

(** ** The keys of [bullets] *)

Lemma mutateBullet_uuid (b' : Bullet) (bs : list Bullet) :
  map uuid (mutateBullet b' bs) = map uuid bs.
Proof.
  unfold mutateBullet. induction bs as [| b rest IH]; [reflexivity |].
  cbn. rewrite IH. destruct (String.eqb_spec (uuid b) (uuid b')) as [E | _];
    [rewrite E |]; reflexivity.
Qed.

Lemma existsb_uuid_false (k : string) (bs : list Bullet) :
  existsb (fun c => String.eqb (uuid c) k) bs = false -> ~ In k (map uuid bs).
Proof.
  induction bs as [| b rest IH]; cbn; [tauto |].
  intros H. apply orb_false_iff in H. destruct H as [Hb Hrest].
  intros [E | Hin].
  - rewrite E, String.eqb_refl in Hb. discriminate.
  - apply (IH Hrest Hin).
Qed.

Lemma existsb_uuid_true (k : string) (bs : list Bullet) :
  existsb (fun c => String.eqb (uuid c) k) bs = true -> In k (map uuid bs).
Proof.
  induction bs as [| b rest IH]; cbn; [discriminate |].
  intros H. apply orb_true_iff in H. destruct H as [Hb | Hrest].
  - left. apply String.eqb_eq. exact Hb.
  - right. apply (IH Hrest).
Qed.

Lemma deleteBullet_absent (k : string) (bs : list Bullet) :
  ~ In k (map uuid bs) -> deleteBullet k bs = bs.
Proof.
  unfold deleteBullet. induction bs as [| b rest IH]; [reflexivity |].
  cbn. intros Hnot.
  destruct (String.eqb_spec (uuid b) k) as [E | _]; [tauto |].
  cbn. rewrite IH; [reflexivity | tauto].
Qed.

Lemma mutateBullet_absent (b' : Bullet) (bs : list Bullet) :
  ~ In (uuid b') (map uuid bs) -> mutateBullet b' bs = bs.
Proof.
  unfold mutateBullet. induction bs as [| b rest IH]; [reflexivity |].
  cbn. intros Hnot.
  destruct (String.eqb_spec (uuid b) (uuid b')) as [E | _]; [tauto |].
  rewrite IH; [reflexivity | tauto].
Qed.

Lemma deleteBullet_twice (k : string) (bs : list Bullet) :
  deleteBullet k (deleteBullet k bs) = deleteBullet k bs.
Proof.
  unfold deleteBullet. induction bs as [| b rest IH]; [reflexivity |].
  cbn. destruct (negb (String.eqb (uuid b) k)) eqn:E; [| exact IH].
  cbn. rewrite E, IH. reflexivity.
Qed.

Lemma NoDup_middle (done rest : list Bullet) (b : Bullet) :
  NoDup (map uuid (done ++ b :: rest)) ->
  ~ In (uuid b) (map uuid done) /\ ~ In (uuid b) (map uuid rest) /\
  NoDup (map uuid (done ++ rest)).
Proof.
  rewrite !map_app. cbn [map]. intros H.
  pose proof (NoDup_remove_1 _ _ _ H) as H1.
  pose proof (NoDup_remove_2 _ _ _ H) as H2.
  split; [| split; [| exact H1]]; intros Hin; apply H2; apply in_or_app; tauto.
Qed.

Lemma deleteBullet_middle (done rest : list Bullet) (b : Bullet) :
  NoDup (map uuid (done ++ b :: rest)) ->
  deleteBullet (uuid b) (done ++ b :: rest) = done ++ rest.
Proof.
  intros H. destruct (NoDup_middle done rest b H) as [H1 [H2 _]].
  unfold deleteBullet. rewrite filter_app. cbn [filter].
  rewrite String.eqb_refl. cbn [negb].
  fold (deleteBullet (uuid b) done). fold (deleteBullet (uuid b) rest).
  rewrite (deleteBullet_absent _ _ H1), (deleteBullet_absent _ _ H2). reflexivity.
Qed.

Lemma mutateBullet_middle (done rest : list Bullet) (b b' : Bullet) :
  uuid b' = uuid b ->
  NoDup (map uuid (done ++ b :: rest)) ->
  mutateBullet b' (done ++ b :: rest) = done ++ b' :: rest.
Proof.
  intros E H. destruct (NoDup_middle done rest b H) as [H1 [H2 _]].
  rewrite <- E in H1, H2.
  unfold mutateBullet. rewrite map_app. cbn [map].
  rewrite <- E, String.eqb_refl.
  fold (mutateBullet b' done). fold (mutateBullet b' rest).
  rewrite (mutateBullet_absent _ _ H1), (mutateBullet_absent _ _ H2). reflexivity.
Qed.

Lemma NoDup_snoc {A : Type} (l : list A) (a : A) :
  NoDup l -> ~ In a l -> NoDup (l ++ [a]).
Proof.
  induction l as [| hd tl IH]; intros Hl Ha; cbn.
  - constructor; [tauto | constructor].
  - inversion Hl as [| ? ? Hhd Htl]; subst.
    constructor.
    + intros Hin. apply in_app_or in Hin.
      destruct Hin as [Hin | [Hin | []]]; [contradiction |].
      apply Ha. left. symmetry. exact Hin.
    + apply IH; [exact Htl | cbn in Ha; tauto].
Qed.

(** X12. A shot.  Outside Playing the trigger is ignored.  While Playing, a
    shot whose uuid is not a key of [bullets] appends one bullet, at the
    shot position, with velocity 10 times the shot direction and one second
    to live; and whatever the uuid, the keys of [bullets] stay pairwise
    distinct. *)
Theorem handleBlasterInput_spec :
  forall (s : Shot) (w : World),
    (state (gm w) <> PLAYING -> handleBlasterInput (Some s) w = Some (tt, w, [])) /\
    (state (gm w) = PLAYING ->
     ~ In (shotUuid s) (map uuid (bullets w)) ->
     handleBlasterInput (Some s) w
     = Some (tt,
             set_bullets
               (bullets w
                ++ [mkBullet (shotUuid s) (shotPosition s)
                      (multiplyScalar (shotDirection s) 10) 1]) w,
             [])) /\
    (NoDup (map uuid (bullets w)) ->
     exists w',
       handleBlasterInput (Some s) w = Some (tt, w', []) /\
       NoDup (map uuid (bullets w')) /\
       gm w' = gm w /\ targets w' = targets w).
Proof.
  intros s w. unfold handleBlasterInput, bind, get.
  split; [| split].
  - intros Hst. destruct (state (gm w)); try reflexivity. contradiction.
  - intros Hst Hfresh. rewrite Hst. cbn. unfold storeBullet. cbn [uuid].
    destruct (existsb (fun c => String.eqb (uuid c) (shotUuid s)) (bullets w)) eqn:E;
      [| reflexivity].
    apply existsb_uuid_true in E. contradiction.
  - intros Hnodup.
    destruct (GameState_eqb (state (gm w)) PLAYING); cbn [negb].
    + eexists. split; [reflexivity |]. cbn.
      split; [| split; reflexivity].
      unfold storeBullet. cbn [uuid].
      destruct (existsb (fun c => String.eqb (uuid c) (shotUuid s)) (bullets w)) eqn:E.
      * rewrite mutateBullet_uuid. exact Hnodup.
      * apply existsb_uuid_false in E.
        rewrite map_app. cbn [map uuid].
        apply NoDup_snoc; assumption.
    + exists w. repeat split. exact Hnodup.
Qed.

Lemma handleBlasterInput_spec_witness :
  let s := mkShot "n" (mkVector3 0 1 0) (mkVector3 0 0 (-1 # 1)) in
  let old := mkBullet "o" (mkVector3 0 0 0) (mkVector3 0 0 (-10 # 1)) (1 # 2) in
  handleBlasterInput (Some s) (arena 0 [old] [] true)
  = Some (tt,
          arena 0 [old; mkBullet "n" (mkVector3 0 1 0)
                          (multiplyScalar (mkVector3 0 0 (-1 # 1)) 10) 1] [] true,
          []) /\
  handleBlasterInput (Some s) (mkWorld (newGameManager Absent Absent) [old] [] true 0)
  = Some (tt, mkWorld (newGameManager Absent Absent) [old] [] true 0, []) /\
  exists w',
    handleBlasterInput (Some s) (arena 0 [old] [] true) = Some (tt, w', []) /\
    NoDup (map uuid (bullets w')).
Proof.
  intros s old. split; [| split].
  - apply (handleBlasterInput_spec s (arena 0 [old] [] true)).
    + reflexivity.
    + simpl. intros [H | []]. discriminate.
  - apply (handleBlasterInput_spec s
             (mkWorld (newGameManager Absent Absent) [old] [] true 0)).
    simpl. discriminate.
  - destruct (proj2 (proj2 (handleBlasterInput_spec s (arena 0 [old] [] true))))
      as [w' [Hrun [Hnodup _]]].
    + simpl. constructor; [intros [] | constructor].
    + exists w'. split; assumption.
Defined.

(** ** What a tick does to bullets, targets and score *)

Lemma still_replace_nth (ts : list Target) (i : nat) (t : Target) (n : nat) :
  nth_error ts i = Some t ->
  map still
    (replace_nth ts i
       (mkTarget (position t) (visible t) (scale t) (moveDirection t) (moveSpeed t)
          (isMoving t) n))
  = map still ts.
Proof.
  revert i. induction ts as [| hd tl IH]; intros i H.
  - destruct i; discriminate.
  - destruct i; cbn in *.
    + injection H as ->. reflexivity.
    + rewrite (IH i H). reflexivity.
Qed.

Lemma hitsOf_still (ts : list Target) (b : Bullet) :
  hitsOf (map still ts) b = hitsOf ts b.
Proof.
  unfold hitsOf. induction ts as [| t rest IH]; [reflexivity |].
  cbn [map filter still position visible].
  destruct (visible t
            && Qlt_bool (distanceToSquared (position t) (bulletPosition b)) 1);
    cbn [List.length]; rewrite IH; reflexivity.
Qed.

Lemma hitsOf_enumerate (ts : list Target) (b : Bullet) (i : nat) :
  List.length
    (filter (fun it : nat * Target =>
               Qlt_bool (distanceToSquared (position (snd it)) (bulletPosition b)) 1)
       (filter (fun it : nat * Target => visible (snd it)) (enumerate i ts)))
  = hitsOf ts b.
Proof.
  unfold hitsOf. revert i. induction ts as [| t rest IH]; intros i; [reflexivity |].
  cbn [enumerate filter snd].
  destruct (visible t); cbn [andb filter snd]; [| apply IH].
  destruct (Qlt_bool (distanceToSquared (position t) (bulletPosition b)) 1);
    cbn [List.length]; rewrite IH; reflexivity.
Qed.

Section Accounting.

Variable random : nat -> Q.
Variable normalize : Vector3 -> Vector3.

Lemma onManager_addScore (w : World) :
  exists g' evs,
    addScore 10 (gm w) = Some (tt, g', evs) /\
    score g' = score (gm w) + 10 /\
    onManager random normalize (addScore 10) w = Some (tt, set_gm g' w, evs).
Proof.
  destruct (addScore_returns 10 (gm w)) as [g' [evs [Hrun [Hs _]]]].
  exists g', evs. split; [exact Hrun |]. split; [exact Hs |].
  destruct (onManager_returns random normalize (addScore 10) w tt g' evs Hrun)
    as [w' [H [_ Q]]].
  rewrite H, (Q (addScore_quiet 10 (gm w) g' evs Hrun)). reflexivity.
Qed.

(** The inner loop of [updateBullets] for one bullet, over a snapshot [l]
    of indexed targets. *)
Lemma hitTests_effect (bullet : Bullet) (l : list (nat * Target)) (w : World) :
  let n :=
    List.length
      (filter (fun it : nat * Target =>
                 Qlt_bool (distanceToSquared (position (snd it)) (bulletPosition bullet)) 1)
              l) in
  exists w' e,
    forEach l (hitTest random normalize bullet) w = Some (tt, w', e) /\
    score (gm w') = score (gm w) + 10 * Z.of_nat n /\
    bullets w' = (if Nat.eqb n 0 then bullets w
                  else deleteBullet (uuid bullet) (bullets w)) /\
    map still (targets w') = map still (targets w).
Proof.
  cbv zeta. revert w. induction l as [| [i t] rest IH]; intros w.
  - exists w, []. cbn. repeat split. lia.
  - cbn [forEach filter snd]. unfold bind. unfold hitTest at 1.
    destruct (Qlt_bool (distanceToSquared (position t) (bulletPosition bullet)) 1).
    + unfold bind, modify.
      match goal with
      | |- context [onManager random normalize (addScore 10) ?w1] => set (w1' := w1)
      end.
      destruct (onManager_addScore w1') as [g' [evs [_ [Hs Hm]]]].
      rewrite Hm.
      destruct (IH (set_gm g' w1')) as [w' [e [Hrun [Hscore [Hbul Htar]]]]].
      rewrite Hrun. exists w'. eexists. split; [reflexivity |].
      cbn [List.length Nat.eqb].
      assert (Hs' : score g' = score (gm w) + 10) by exact Hs.
      split; [rewrite Hscore; cbn [gm set_gm]; rewrite Hs'; lia |].
      split.
      * rewrite Hbul. subst w1'. cbn [bullets set_gm set_bullets set_targets].
        destruct (Nat.eqb _ 0); [reflexivity | apply deleteBullet_twice].
      * rewrite Htar. subst w1'. cbn [targets set_gm set_bullets set_targets].
        destruct (nth_error (targets w) i) as [u |] eqn:Hu; [| reflexivity].
        apply still_replace_nth. exact Hu.
    + cbn [ret]. destruct (IH w) as [w' [e [Hrun [Hscore [Hbul Htar]]]]].
      unfold ret. rewrite Hrun. exists w'. eexists. split; [reflexivity |].
      repeat split; assumption.
Qed.

(** The body of the outer loop. *)
Lemma updateBullet_effect (delta : Q) (bullet : Bullet) (w : World) :
  exists w' e,
    updateBullet random normalize delta bullet w = Some (tt, w', e) /\
    score (gm w') = score (gm w) + 10 * Z.of_nat (hitsAt delta (targets w) bullet) /\
    map still (targets w') = map still (targets w) /\
    bullets w' =
      (if Qlt_bool (timeToLive bullet) 0
       then deleteBullet (uuid bullet) (bullets w)
       else if Nat.eqb (hitsOf (targets w) (advanced delta bullet)) 0
            then mutateBullet (advanced delta bullet) (bullets w)
            else deleteBullet (uuid bullet)
                   (mutateBullet (advanced delta bullet) (bullets w))).
Proof.
  unfold updateBullet, hitsAt.
  destruct (Qlt_bool (timeToLive bullet) 0).
  - eexists. eexists. split; [reflexivity |]. cbn. repeat split. lia.
  - fold (advanced delta bullet). unfold bind at 1 2. unfold modify, get.
    set (w1 := set_bullets (mutateBullet (advanced delta bullet) (bullets w)) w).
    change (targets w1) with (targets w).
    destruct (hitTests_effect (advanced delta bullet)
                (filter (fun it : nat * Target => visible (snd it))
                   (enumerate 0 (targets w))) w1)
      as [w' [e [Hrun [Hscore [Hbul Htar]]]]].
    rewrite (hitsOf_enumerate (targets w) (advanced delta bullet) 0) in Hscore, Hbul.
    rewrite Hrun. exists w'. eexists. split; [reflexivity |].
    split; [exact Hscore |]. split; [exact Htar |]. exact Hbul.
Qed.

Lemma updateBullets_effect (delta : Q) (ts0 : list Target) (bs : list Bullet) :
  forall w,
    map still (targets w) = map still ts0 ->
    exists w' e,
      forEach bs (updateBullet random normalize delta) w = Some (tt, w', e) /\
      score (gm w') = score (gm w) + 10 * Z.of_nat (totalHits delta ts0 bs) /\
      map still (targets w') = map still ts0 /\
      (forall done,
         bullets w = done ++ bs ->
         NoDup (map uuid (done ++ bs)) ->
         bullets w' = done ++ survivors delta ts0 bs /\
         NoDup (map uuid (bullets w'))).
Proof.
  induction bs as [| b rest IH]; intros w Hts.
  - exists w, []. split; [reflexivity |]. cbn. split; [lia |]. split; [exact Hts |].
    intros done Hb Hn. rewrite Hb. split; [reflexivity | exact Hn].
  - destruct (updateBullet_effect delta b w) as [w1 [e1 [H1 [S1 [T1 B1]]]]].
    assert (Hhits : forall c, hitsOf (targets w) c = hitsOf ts0 c).
    { intros c. rewrite <- (hitsOf_still (targets w)), Hts. apply hitsOf_still. }
    assert (Hat : hitsAt delta (targets w) b = hitsAt delta ts0 b).
    { unfold hitsAt. destruct (Qlt_bool (timeToLive b) 0); [reflexivity | apply Hhits]. }
    rewrite Hat in S1. rewrite Hhits in B1.
    destruct (IH w1 (eq_trans T1 Hts)) as [w2 [e2 [H2 [S2 [T2 B2]]]]].
    exists w2, (e1 ++ e2). cbn [forEach]. unfold bind. rewrite H1, H2.
    split; [reflexivity |].
    split; [rewrite S2, S1; cbn [totalHits]; lia |].
    split; [exact T2 |].
    intros done Hb Hn.
    destruct (NoDup_middle done rest b Hn) as [_ [_ Hn']].
    assert (Hadv : uuid (advanced delta b) = uuid b) by reflexivity.
    cbn [survivors]. rewrite Hb in B1.
    rewrite (mutateBullet_middle done rest b (advanced delta b) Hadv Hn) in B1.
    assert (Hn1 : NoDup (map uuid (done ++ advanced delta b :: rest))).
    { rewrite map_app in *. cbn [map] in *. exact Hn. }
    rewrite (deleteBullet_middle done rest b Hn) in B1.
    rewrite <- Hadv in B1 at 1.
    rewrite (deleteBullet_middle done rest (advanced delta b) Hn1) in B1.
    destruct (Qlt_bool (timeToLive b) 0).
    + cbn [app]. apply (B2 done B1 Hn').
    + destruct (Nat.eqb (hitsOf ts0 (advanced delta b)) 0).
      * cbn [app].
        destruct (B2 (done ++ [advanced delta b])) as [B3 N3].
        -- rewrite B1, <- app_assoc. reflexivity.
        -- rewrite <- app_assoc. exact Hn1.
        -- rewrite <- app_assoc in B3. split; [exact B3 | exact N3].
      * cbn [app]. apply (B2 done B1 Hn').
Qed.

End Accounting.

(** X13. What a tick scores.  While Playing, [updateBullets(delta)] returns
    and raises the score by exactly 10 points for every pair of a bullet
    that had not expired and a visible target within the hit radius of its
    advanced position; targets are neither moved nor hidden nor otherwise
    changed by it, apart from the hit animations it starts. *)
Theorem updateBullets_score :
  forall (random : nat -> Q) (normalize : Vector3 -> Vector3) (delta : Q) (w : World),
    state (gm w) = PLAYING ->
    exists w' evs,
      updateBullets random normalize delta w = Some (tt, w', evs) /\
      score (gm w')
      = score (gm w) + 10 * Z.of_nat (totalHits delta (targets w) (bullets w)) /\
      map still (targets w') = map still (targets w).
Proof.
  intros random normalize delta w Hst.
  destruct (updateBullets_effect random normalize delta (targets w) (bullets w) w eq_refl)
    as [w' [e [Hrun [Hscore [Htar _]]]]].
  exists w'. eexists.
  unfold updateBullets, bind, get. rewrite Hst. cbn [GameState_eqb negb].
  rewrite Hrun. split; [reflexivity |]. split; assumption.
Qed.

Lemma updateBullets_score_witness :
  let missed := mkBullet "a" (mkVector3 3 1 (-5 # 1)) (mkVector3 0 0 (-10 # 1)) 1 in
  let bullet := mkBullet "b" (mkVector3 0 1 (-5 # 1)) (mkVector3 0 0 (-10 # 1)) 1 in
  let near := targetAt (mkVector3 0 1 (-6 # 1)) in
  exists w' evs,
    updateBullets halfRandom normalizeNull (1 # 10) (arena 0 [missed; bullet] [near] true)
    = Some (tt, w', evs) /\
    score (gm w') = 10.
Proof.
  intros missed bullet near.
  destruct (updateBullets_score halfRandom normalizeNull (1 # 10)
              (arena 0 [missed; bullet] [near] true) eq_refl)
    as [w' [evs [Hrun [Hscore _]]]].
  exists w', evs. split; [exact Hrun |]. rewrite Hscore. reflexivity.
Defined.

Lemma survivors_bounds (delta : Q) (ts : list Target) (bs : list Bullet) :
  (List.length (survivors delta ts bs) <= List.length bs)%nat /\
  forall b, In b (survivors delta ts bs) -> (- delta <= timeToLive b)%Q.
Proof.
  induction bs as [| c rest [IHlen IHttl]]; cbn [survivors].
  - split; [apply Nat.le_refl | intros b []].
  - destruct (Qlt_bool (timeToLive c) 0) eqn:E; cbn [app].
    + split; [cbn; lia | exact IHttl].
    + destruct (Nat.eqb (hitsOf ts (advanced delta c)) 0); cbn [app].
      * split; [cbn; lia |].
        intros b [<- | Hin]; [| apply IHttl; exact Hin].
        cbn [advanced timeToLive].
        assert (Hlive : (0 <= timeToLive c)%Q).
        { apply Qnot_lt_le. intros Hlt. apply Qlt_bool_iff in Hlt. congruence. }
        lra.
      * split; [cbn; lia | exact IHttl].
Qed.

(** X14. What a tick leaves in [bullets].  While Playing, with pairwise
    distinct keys, [updateBullets(delta)] keeps, in their order and
    advanced by one tick, exactly the bullets that had not expired and hit
    no visible target; every other bullet is removed.  The keys stay
    pairwise distinct, no bullet is added, and no bullet left has a time to
    live below [-delta]: a bullet outlives its time by at most one tick. *)
Theorem updateBullets_store :
  forall (random : nat -> Q) (normalize : Vector3 -> Vector3) (delta : Q) (w : World),
    state (gm w) = PLAYING ->
    NoDup (map uuid (bullets w)) ->
    exists w' evs,
      updateBullets random normalize delta w = Some (tt, w', evs) /\
      bullets w' = survivors delta (targets w) (bullets w) /\
      NoDup (map uuid (bullets w')) /\
      (List.length (bullets w') <= List.length (bullets w))%nat /\
      (forall b, In b (bullets w') -> (- delta <= timeToLive b)%Q).
Proof.
  intros random normalize delta w Hst Hnodup.
  destruct (updateBullets_effect random normalize delta (targets w) (bullets w) w eq_refl)
    as [w' [e [Hrun [_ [_ Hstore]]]]].
  destruct (Hstore [] eq_refl Hnodup) as [Hb Hn].
  cbn [app] in Hb.
  destruct (survivors_bounds delta (targets w) (bullets w)) as [Hlen Httl].
  exists w'. eexists.
  unfold updateBullets, bind, get. rewrite Hst. cbn [GameState_eqb negb].
  rewrite Hrun. split; [reflexivity |].
  split; [exact Hb |]. split; [exact Hn |].
  rewrite Hb. split; assumption.
Qed.

Lemma updateBullets_store_witness :
  let dead := mkBullet "d" (mkVector3 0 0 0) (mkVector3 0 0 (-10 # 1)) (-1 # 10) in
  let missed := mkBullet "a" (mkVector3 3 1 (-5 # 1)) (mkVector3 0 0 (-10 # 1)) 1 in
  let bullet := mkBullet "b" (mkVector3 0 1 (-5 # 1)) (mkVector3 0 0 (-10 # 1)) 1 in
  let near := targetAt (mkVector3 0 1 (-6 # 1)) in
  exists w' evs,
    updateBullets halfRandom normalizeNull (1 # 10)
      (arena 0 [dead; missed; bullet] [near] true)
    = Some (tt, w', evs) /\
    bullets w' = [advanced (1 # 10) missed].
Proof.
  intros dead missed bullet near.
  destruct (updateBullets_store halfRandom normalizeNull (1 # 10)
              (arena 0 [dead; missed; bullet] [near] true) eq_refl)
    as [w' [evs [Hrun [Hb _]]]].
  - simpl. repeat constructor; simpl; intros H;
      repeat (destruct H as [H | H]; try discriminate H); exact H.
  - exists w', evs. split; [exact Hrun |]. rewrite Hb. reflexivity.
Defined.

(** ** Moving targets *)

(** X15. What [updateTargets] leaves alone.  It always returns, notifies
    nobody and never touches the controller or the bullets; it keeps the
    number of targets and, of every target, the visibility, the z
    coordinate, the scale, the speed and the moving flag; a hidden target
    and a target that is not moving are left exactly as they are; and
    outside Playing, or on a level without [movingTargets], nothing at all
    changes. *)
Theorem updateTargets_frame :
  forall (delta : Q) (w : World),
    exists w',
      updateTargets delta w = Some (tt, w', []) /\
      gm w' = gm w /\ bullets w' = bullets w /\
      List.length (targets w') = List.length (targets w) /\
      map visible (targets w') = map visible (targets w) /\
      map (fun t => z (position t)) (targets w')
      = map (fun t => z (position t)) (targets w) /\
      map scale (targets w') = map scale (targets w) /\
      map moveSpeed (targets w') = map moveSpeed (targets w) /\
      map isMoving (targets w') = map isMoving (targets w) /\
      (forall i t,
         nth_error (targets w) i = Some t ->
         visible t = false \/ isMoving t = false ->
         nth_error (targets w') i = Some t) /\
      (state (gm w) <> PLAYING -> w' = w) /\
      (forall cfg,
         getCurrentLevelConfig (gm w) = Some cfg -> movingTargets cfg = false -> w' = w).
Proof.
  intros delta w.
  assert (Hid : updateTargets delta w = Some (tt, w, []) ->
    exists w',
      updateTargets delta w = Some (tt, w', []) /\
      gm w' = gm w /\ bullets w' = bullets w /\
      List.length (targets w') = List.length (targets w) /\
      map visible (targets w') = map visible (targets w) /\
      map (fun t => z (position t)) (targets w')
      = map (fun t => z (position t)) (targets w) /\
      map scale (targets w') = map scale (targets w) /\
      map moveSpeed (targets w') = map moveSpeed (targets w) /\
      map isMoving (targets w') = map isMoving (targets w) /\
      (forall i t,
         nth_error (targets w) i = Some t ->
         visible t = false \/ isMoving t = false ->
         nth_error (targets w') i = Some t) /\
      (state (gm w) <> PLAYING -> w' = w) /\
      (forall cfg,
         getCurrentLevelConfig (gm w) = Some cfg -> movingTargets cfg = false -> w' = w)).
  { intros H. exists w. split; [exact H |]. repeat split; auto. }
  destruct (getCurrentLevelConfig_some (gm w)) as [cfg [Hcfg _]].
  destruct (GameState_eqb (state (gm w)) PLAYING) eqn:Hst.
  2:{ apply Hid. unfold updateTargets, bind, get. rewrite Hst. reflexivity. }
  destruct (movingTargets cfg) eqn:Hmov.
  2:{ apply Hid. unfold updateTargets, bind, get. rewrite Hst, Hcfg. cbn.
      rewrite Hmov. reflexivity. }
  set (step := fun target : Target =>
                 if visible target && isMoving target
                 then moveTarget cfg delta target else target).
  exists (set_targets (map step (targets w)) w).
  split.
  { unfold updateTargets, bind, get. rewrite Hst, Hcfg. cbn. rewrite Hmov. reflexivity. }
  cbn [gm bullets targets set_targets].
  assert (Hfield : forall (A : Type) (f : Target -> A),
            (forall t, f (moveTarget cfg delta t) = f t) ->
            map f (map step (targets w)) = map f (targets w)).
  { intros A f Hf. rewrite map_map. apply map_ext. intros t. unfold step.
    destruct (visible t && isMoving t); [apply Hf | reflexivity]. }
  split; [reflexivity |]. split; [reflexivity |].
  split; [apply length_map |].
  split; [apply Hfield; reflexivity |].
  split; [apply (Hfield Q (fun t => z (position t))); reflexivity |].
  split; [apply Hfield; reflexivity |].
  split; [apply Hfield; reflexivity |].
  split; [apply Hfield; reflexivity |].
  split.
  { intros i t Hnth Hidle. rewrite nth_error_map, Hnth. cbn. unfold step.
    destruct Hidle as [-> | ->]; [| rewrite andb_false_r]; reflexivity. }
  split.
  { intros Hnot. destruct (state (gm w)); try discriminate. contradiction. }
  intros cfg' Hcfg' Hno. rewrite Hcfg in Hcfg'. injection Hcfg' as <-.
  rewrite Hmov in Hno. discriminate.
Qed.

Lemma updateTargets_frame_witness :
  let hidden :=
    mkTarget (mkVector3 0 2 (-6 # 1)) false (mkVector3 0 0 0) (mkVector3 1 0 0) (3 # 2)
      true 0 in
  let moving :=
    mkTarget (mkVector3 0 2 (-7 # 1)) true (mkVector3 1 1 1) (mkVector3 1 0 0) (3 # 2)
      true 0 in
  let w :=
    mkWorld (mkGameManager PLAYING 3 0 60 DEFAULT_SETTINGS [0; 0; 0; 0; 0]) []
      [moving; hidden] true 0 in
  exists w',
    updateTargets (1 # 10) w = Some (tt, w', []) /\
    nth_error (targets w') 1 = Some hidden /\
    (exists t, nth_error (targets w') 0 = Some t /\ (x (position t) == 15 # 100)%Q) /\
    updateTargets (1 # 10) (arena 0 [] [moving; hidden] true)
    = Some (tt, arena 0 [] [moving; hidden] true, []).
Proof.
  intros hidden moving w.
  destruct (updateTargets_frame (1 # 10) w)
    as [w' [Hrun [_ [_ [_ [_ [_ [_ [_ [_ [Hidle _]]]]]]]]]]].
  exists w'. split; [exact Hrun |].
  split; [apply (Hidle 1%nat hidden eq_refl); left; reflexivity |].
  split.
  - vm_compute in Hrun. injection Hrun as <-.
    eexists. split; reflexivity.
  - destruct (updateTargets_frame (1 # 10) (arena 0 [] [moving; hidden] true))
      as [v [Hv [_ [_ [_ [_ [_ [_ [_ [_ [_ [_ Hlevel]]]]]]]]]]]].
    rewrite Hv.
    rewrite (Hlevel (mkLevel 1 "Beginner" "Learn the basics" 3 0 30 60 false)
               eq_refl eq_refl).
    reflexivity.
Defined.

(** ** Frames and the controller *)

Lemma runOps_app (a b : list Op) (g g1 g2 : GameManager) (e1 e2 : list Event) :
  runOps a g = Some (tt, g1, e1) ->
  runOps b g1 = Some (tt, g2, e2) ->
  runOps (a ++ b) g = Some (tt, g2, e1 ++ e2).
Proof.
  revert g e1. induction a as [| o rest IH]; intros g e1 Ha Hb.
  - cbn in Ha. injection Ha as <- <-. exact Hb.
  - cbn [runOps app] in *. unfold bind in *.
    destruct (runOp o g) as [[[[] g0] e0] |]; [| discriminate].
    destruct (runOps rest g0) as [[[[] g3] e3] |] eqn:Hrest; [| discriminate].
    injection Ha as <- <-.
    rewrite (IH g0 e3 Hrest Hb), app_assoc. reflexivity.
Qed.

Lemma runOps_single (o : Op) (g g' : GameManager) (evs : list Event) :
  runOp o g = Some (tt, g', evs) -> runOps [o] g = Some (tt, g', evs).
Proof.
  intros H. cbn [runOps]. unfold bind, ret. rewrite H, app_nil_r. reflexivity.
Qed.

Lemma forEach_trace {S A : Type} (R : S -> S -> list Event -> Prop)
    (l : list A) (f : A -> M S unit) :
  (forall s, R s s []) ->
  (forall s1 s2 s3 e1 e2, R s1 s2 e1 -> R s2 s3 e2 -> R s1 s3 (e1 ++ e2)) ->
  (forall a s, exists s' e, f a s = Some (tt, s', e) /\ R s s' e) ->
  forall s, exists s' e, forEach l f s = Some (tt, s', e) /\ R s s' e.
Proof.
  intros Hrefl Htrans Hf. induction l as [| a rest IH]; intros s.
  - exists s, []. split; [reflexivity | apply Hrefl].
  - destruct (Hf a s) as [s1 [e1 [H1 R1]]].
    destruct (IH s1) as [s2 [e2 [H2 R2]]].
    exists s2, (e1 ++ e2). cbn [forEach]. unfold bind. rewrite H1, H2.
    split; [reflexivity | eapply Htrans; eassumption].
Qed.

Section Refinement.

Variable random : nat -> Q.
Variable normalize : Vector3 -> Vector3.

Lemma scored_refl (w w' : World) : gm w' = gm w -> scored w w' [].
Proof. intros H. exists 0%nat. rewrite H. reflexivity. Qed.

Lemma scored_trans (w1 w2 w3 : World) (e1 e2 : list Event) :
  scored w1 w2 e1 -> scored w2 w3 e2 -> scored w1 w3 (e1 ++ e2).
Proof.
  intros [n Hn] [m Hm]. exists (n + m)%nat.
  unfold scoringCalls in *. rewrite repeat_app.
  eapply runOps_app; eassumption.
Qed.

Lemma hitTest_scored (bullet : Bullet) (it : nat * Target) (w : World) :
  exists w' e, hitTest random normalize bullet it w = Some (tt, w', e) /\ scored w w' e.
Proof.
  destruct it as [i t]. unfold hitTest.
  destruct (Qlt_bool (distanceToSquared (position t) (bulletPosition bullet)) 1).
  - unfold bind, modify.
    match goal with
    | |- context [onManager random normalize (addScore 10) ?w1] => set (w1' := w1)
    end.
    destruct (onManager_addScore random normalize w1') as [g' [evs [Hrun [_ Hm]]]].
    rewrite Hm. eexists. eexists. split; [reflexivity |].
    exists 1%nat. cbn [app gm set_gm].
    apply (runOps_single (OpAddScore 10)). exact Hrun.
  - exists w, []. split; [reflexivity | apply scored_refl; reflexivity].
Qed.

Lemma updateBullet_scored (delta : Q) (bullet : Bullet) (w : World) :
  exists w' e,
    updateBullet random normalize delta bullet w = Some (tt, w', e) /\ scored w w' e.
Proof.
  unfold updateBullet.
  destruct (Qlt_bool (timeToLive bullet) 0).
  - eexists. eexists. split; [reflexivity | apply scored_refl; reflexivity].
  - unfold bind at 1 2. unfold modify, get.
    match goal with
    | |- context [forEach ?l ?f ?w1] =>
        destruct (forEach_trace scored l f
                    (fun s => scored_refl s s eq_refl) scored_trans
                    (fun a s => hitTest_scored _ a s) w1) as [w' [e [H [n Hn]]]];
        rewrite H
    end.
    exists w'. eexists. split; [reflexivity |].
    exists n. exact Hn.
Qed.

Lemma advanceArena_scored (delta : Q) (w : World) :
  exists w' e,
    advanceArena random normalize delta w = Some (tt, w', e) /\ scored w w' e.
Proof.
  assert (Hb : exists w1 e1,
            updateBullets random normalize delta w = Some (tt, w1, e1) /\ scored w w1 e1).
  { unfold updateBullets, bind, get.
    destruct (GameState_eqb (state (gm w)) PLAYING); cbn [negb].
    - destruct (forEach_trace scored (bullets w) (updateBullet random normalize delta)
                  (fun s => scored_refl s s eq_refl) scored_trans
                  (fun a s => updateBullet_scored delta a s) w) as [w1 [e1 [H R]]].
      rewrite H. exists w1. eexists. split; [reflexivity | exact R].
    - exists w, []. split; [reflexivity | apply scored_refl; reflexivity]. }
  destruct Hb as [w1 [e1 [H1 [n Hn]]]].
  destruct (updateTargets_step delta w1) as [w2 [H2 [G2 _]]].
  exists w2, (e1 ++ []). unfold advanceArena, bind. rewrite H1, H2.
  split; [reflexivity |].
  exists n. rewrite G2, app_nil_r. exact Hn.
Qed.

Lemma handleUIInteraction_ops (click : option Click) (w : World) :
  exists w' e,
    handleUIInteraction random normalize click w = Some (tt, w', e) /\
    runOps (clickOps click) (gm w) = Some (tt, gm w', e).
Proof.
  assert (Hop : forall (o : Op) (m : M GameManager unit),
            runOp o = m ->
            exists w' e,
              onManager random normalize m w = Some (tt, w', e) /\
              runOps [o] (gm w) = Some (tt, gm w', e)).
  { intros o m <-.
    destruct (runOp_step o (gm w)) as [g' [evs [Hrun _]]].
    destruct (onManager_returns random normalize (runOp o) w tt g' evs Hrun)
      as [w' [H [G _]]].
    exists w', evs. split; [exact H |]. rewrite G.
    apply runOps_single. exact Hrun. }
  destruct click as [[index | | | |] |]; cbn [handleUIInteraction clickOps].
  - apply (Hop (OpStartLevel index)). reflexivity.
  - destruct (toggleLeftHandedMode (gm w)) as [[[b g'] evs] |] eqn:Hrun;
      [| discriminate Hrun].
    destruct (onManager_returns random normalize toggleLeftHandedMode w b g' evs Hrun)
      as [w' [H [G _]]].
    exists w', (evs ++ []). unfold bind. rewrite H.
    split; [reflexivity |].
    cbn [runOps runOp]. unfold bind, ret. rewrite Hrun, G, !app_nil_r. reflexivity.
  - apply (Hop OpNextLevel). reflexivity.
  - apply (Hop OpGoToMenu). reflexivity.
  - apply (Hop OpRestartLevel). reflexivity.
  - exists w, []. split; reflexivity.
Qed.

Lemma onFrame_ops (delta : Q) (click : option Click) (fire : option Shot) (w : World) :
  exists w' evs n,
    onFrame random normalize delta click fire w = Some (tt, w', evs) /\
    runOps (clickOps click ++ OpUpdateTime delta :: scoringCalls n) (gm w)
    = Some (tt, gm w', evs).
Proof.
  destruct (handleUIInteraction_ops click w) as [w1 [e1 [H1 O1]]].
  destruct (tickTimer_run random normalize delta w1) as [g2 [e2 [Hg2 H2]]].
  destruct (handleBlasterInput_step fire (set_gm g2 w1)) as [wb [Hb [Gb _]]].
  destruct (advanceArena_scored delta wb) as [w3 [e3 [H3 [n Hn]]]].
  exists w3, (e1 ++ e2 ++ [] ++ e3), n.
  split.
  - unfold onFrame. unfold bind at 1. rewrite H1.
    unfold bind at 1. rewrite H2.
    unfold bind at 1. rewrite Hb, H3. reflexivity.
  - eapply runOps_app; [exact O1 |].
    cbn [runOps runOp app]. unfold bind at 1. rewrite Hg2.
    rewrite Gb in Hn. cbn [gm set_gm] in Hn. rewrite Hn. reflexivity.
Qed.

End Refinement.

(** X16. A frame acts on the controller only through its methods.  Every
    [onFrame] returns, and the controller it leaves, together with the
    notifications of the frame in their order, is what the controller
    methods give when run in sequence: the method of the click (if any),
    [updateTime(delta)], then [addScore(10)] some number of times.  So a
    frame keeps the controller well-formed, keeps its time from going
    negative, keeps the score of a level in play below its goal, and never
    lowers a high score. *)
Theorem onFrame_refines_controller :
  forall (random : nat -> Q) (normalize : Vector3 -> Vector3)
         (delta : Q) (click : option Click) (fire : option Shot) (w : World),
    exists w' evs n,
      onFrame random normalize delta click fire w = Some (tt, w', evs) /\
      runOps (clickOps click ++ OpUpdateTime delta :: scoringCalls n) (gm w)
      = Some (tt, gm w', evs) /\
      (wellFormed (gm w) -> wellFormed (gm w')) /\
      ((0 <= timeRemaining (gm w))%Q -> (0 <= timeRemaining (gm w'))%Q) /\
      (belowGoal (gm w) -> belowGoal (gm w')) /\
      Forall2 Z.le (highScores (gm w)) (highScores (gm w')).
Proof.
  intros random normalize delta click fire w.
  destruct (onFrame_ops random normalize delta click fire w) as [w' [evs [n [Hrun Hops]]]].
  exists w', evs, n. split; [exact Hrun |]. split; [exact Hops |].
  set (os := clickOps click ++ OpUpdateTime delta :: scoringCalls n) in *.
  destruct (runOps_steps os (gm w)) as [g1 [e1 [H1 [Hle Hwf]]]].
  rewrite Hops in H1. injection H1 as <- <-.
  split; [exact Hwf |].
  split.
  - intros Ht.
    destruct (runOps_invariant (fun g => (0 <= timeRemaining g)%Q)
                (fun o g g' evs => runOp_timeRemaining o g g' evs) os (gm w) Ht)
      as [g2 [e2 [H2 P2]]].
    rewrite Hops in H2. injection H2 as <- <-. exact P2.
  - split; [| exact Hle].
    intros Hg.
    destruct (runOps_invariant belowGoal
                (fun o g g' evs => runOp_belowGoal o g g' evs) os (gm w) Hg)
      as [g2 [e2 [H2 P2]]].
    rewrite Hops in H2. injection H2 as <- <-. exact P2.
Qed.

Lemma onFrame_refines_controller_witness :
  let bullet := mkBullet "b" (mkVector3 0 1 (-5 # 1)) (mkVector3 0 0 (-10 # 1)) 1 in
  let w := arena 20 [bullet] [targetAt (mkVector3 0 1 (-6 # 1))] true in
  exists w' evs,
    onFrame halfRandom normalizeNull (1 # 10) None None w = Some (tt, w', evs) /\
    wellFormed (gm w') /\ (0 <= timeRemaining (gm w'))%Q /\ belowGoal (gm w').
Proof.
  intros bullet w.
  destruct (onFrame_refines_controller halfRandom normalizeNull (1 # 10) None None w)
    as [w' [evs [n [Hrun [_ [Hwf [Ht [Hg _]]]]]]]].
  exists w', evs. split; [exact Hrun |].
  split; [| split].
  - apply Hwf. split; [simpl; rewrite LEVELS_length_eq; lia | reflexivity].
  - apply Ht. unfold Qle. simpl. lia.
  - apply Hg. intros _ cfg Hcfg. vm_compute in Hcfg. injection Hcfg as <-.
    simpl. lia.
Defined.

(** X17. Frames outside play, for the controller and the bullets.  Without
    a click, a frame that finds the state not Playing leaves the controller
    and [bullets] as they were and notifies nobody, whatever the elapsed
    time and even when the trigger is pressed.  A frame in which the
    countdown runs out ends the level and scores nothing: the controller
    is in GameOver with no time left and the same score, the time-changed
    and state-changed observers are notified, the shot of that frame is
    dropped and [bullets] stays as it was.  (The hit animations that
    [gsap.ticker.tick] advances on the targets are outside the model, and
    nothing is said of the targets.) *)
Theorem onFrame_outside_play :
  forall (random : nat -> Q) (normalize : Vector3 -> Vector3)
         (delta : Q) (fire : option Shot) (w : World),
    exists w' evs,
      onFrame random normalize delta None fire w = Some (tt, w', evs) /\
      (state (gm w) <> PLAYING ->
       evs = [] /\ gm w' = gm w /\ bullets w' = bullets w) /\
      (state (gm w) = PLAYING ->
       (timeRemaining (gm w) - delta <= 0)%Q ->
       evs = [TimeChanged (timeRemaining (gm w) - delta)%Q; StateChanged GAME_OVER] /\
       gm w'
       = mkGameManager GAME_OVER (currentLevel (gm w)) (score (gm w)) 0
           (settings (gm w)) (highScores (gm w)) /\
       bullets w' = bullets w).
Proof.
  intros random normalize delta fire w.
  assert (Hidle : forall g2 e2,
    state g2 <> PLAYING ->
    tickTimer random normalize delta w = Some (tt, set_gm g2 w, e2) ->
    onFrame random normalize delta None fire w = Some (tt, set_gm g2 w, e2 ++ [])).
  { intros g2 e2 Hst H2.
    destruct (handleBlasterInput_step fire (set_gm g2 w)) as [wb [Hb [_ [_ Sb]]]].
    rewrite (Sb Hst) in Hb.
    destruct (updateBullets_step random normalize delta (set_gm g2 w))
      as [wc [ec [Hc [_ Sc]]]].
    destruct (Sc Hst) as [-> ->].
    destruct (updateTargets_step delta (set_gm g2 w)) as [wt [Ht [_ St]]].
    rewrite (St Hst) in Ht.
    unfold onFrame, advanceArena. cbn [handleUIInteraction].
    unfold bind at 1. unfold ret at 1.
    unfold bind at 1. rewrite H2.
    unfold bind. rewrite Hb, Hc, Ht. reflexivity. }
  destruct (tickTimer_run random normalize delta w) as [g2 [e2 [Hg2 H2]]].
  destruct (GameState_eqb (state (gm w)) PLAYING) eqn:Hplay.
  - assert (Hst : state (gm w) = PLAYING)
      by (destruct (state (gm w)); try discriminate; reflexivity).
    rewrite (updateTime_playing delta (gm w) Hst) in Hg2. cbv zeta in Hg2.
    destruct (Qle_bool (timeRemaining (gm w) - delta) 0) eqn:Hout.
    + cbv beta iota in Hg2. injection Hg2 as <- <-.
      assert (Hover : state (mkGameManager GAME_OVER (currentLevel (gm w))
                               (score (gm w)) 0 (settings (gm w))
                               (highScores (gm w))) <> PLAYING)
        by (cbn; discriminate).
      eexists. eexists. split; [exact (Hidle _ _ Hover H2) |].
      split; [intros Hnot; contradiction |].
      intros _ _. repeat split.
    + destruct (onFrame_ops random normalize delta None fire w)
        as [w' [evs [n [Hrun _]]]].
      exists w', evs. split; [exact Hrun |].
      split; [intros Hnot; contradiction |].
      intros _ Hle. apply Qle_bool_iff in Hle. congruence.
  - assert (Hst : state (gm w) <> PLAYING)
      by (intros Hp; rewrite Hp in Hplay; discriminate).
    rewrite (updateTime_not_playing delta (gm w) Hst) in Hg2.
    injection Hg2 as <- <-.
    eexists. eexists. split; [exact (Hidle (gm w) [] Hst H2) |].
    split; [intros _; repeat split | intros Hp; contradiction].
Qed.

Lemma onFrame_outside_play_witness :
  let s := mkShot "n" (mkVector3 0 1 0) (mkVector3 0 0 (-1 # 1)) in
  let old := mkBullet "o" (mkVector3 0 0 0) (mkVector3 0 0 (-10 # 1)) (1 # 2) in
  (exists w' evs,
     onFrame halfRandom normalizeNull (1 # 10) None (Some s)
       (mkWorld (newGameManager Absent Absent) [old] [] true 0) = Some (tt, w', evs) /\
     evs = [] /\ gm w' = newGameManager Absent Absent /\ bullets w' = [old]) /\
  (exists w' evs,
     onFrame halfRandom normalizeNull 61 None (Some s) (arena 10 [old] [] true)
     = Some (tt, w', evs) /\
     gm w' = mkGameManager GAME_OVER 0 10 0 DEFAULT_SETTINGS [0; 0; 0; 0; 0] /\
     bullets w' = [old]).
Proof.
  intros s old. split.
  - destruct (onFrame_outside_play halfRandom normalizeNull (1 # 10) (Some s)
                (mkWorld (newGameManager Absent Absent) [old] [] true 0))
      as [w' [evs [Hrun [Hidle _]]]].
    exists w', evs. split; [exact Hrun |].
    apply Hidle. simpl. discriminate.
  - destruct (onFrame_outside_play halfRandom normalizeNull 61 (Some s)
                (arena 10 [old] [] true))
      as [w' [evs [Hrun [_ Hout]]]].
    exists w', evs. split; [exact Hrun |].
    destruct (Hout eq_refl) as [_ [Hg Hb]].
    + unfold Qle. simpl. lia.
    + split; [exact Hg | exact Hb].
Defined.

(** * Properties of the panels *)

Lemma scoreTextOk_all :
  forallb (fun n => scoreTextOk (Z.of_nat n)) (seq 0 (Z.to_nat 10000)) = true.
Proof. vm_compute. reflexivity. Qed.

(** X18. The score on the HUD.  For every integer score, [updateScore]
    writes a text of exactly four characters, and the text reads as the
    score clamped to 0..9999: a negative score shows as 0000, a score above
    9999 as 9999. *)
Theorem updateScore_text :
  forall score : Z,
    String.length (GameHUD.updateScore score) = 4%nat /\
    readNumber (GameHUD.updateScore score) = Some (Z.max 0 (Z.min 9999 score)).
Proof.
  intros score. unfold GameHUD.updateScore. cbv zeta.
  set (c := Z.max 0 (Z.min 9999 score)).
  assert (Hc : 0 <= c <= 9999) by (unfold c; lia).
  pose proof scoreTextOk_all as Hall.
  rewrite forallb_forall in Hall.
  specialize (Hall (Z.to_nat c)).
  rewrite Z2Nat.id in Hall by lia.
  assert (Hin : In (Z.to_nat c) (seq 0 (Z.to_nat 10000))) by (apply in_seq; lia).
  specialize (Hall Hin). unfold scoreTextOk in Hall. cbv zeta in Hall.
  apply andb_true_iff in Hall. destruct Hall as [Hlen Hread].
  apply Nat.eqb_eq in Hlen. split; [exact Hlen |].
  destruct (readNumber (padStart 4 "0" (toString c))) as [v |]; [| discriminate].
  apply Z.eqb_eq in Hread. rewrite Hread. reflexivity.
Qed.

(** X19. The time on the HUD.  [updateTime] shows a whole number of
    seconds that is never negative: 0 for a time at or below 0 (such as the
    unclamped value the countdown passes on its last tick), and otherwise
    the time rounded up.  The text is red exactly when the time is at most
    10 seconds. *)
Theorem updateTime_text :
  forall time : Q,
    exists displayTime : Z,
      fst (GameHUD.updateTime time) = toString displayTime /\
      0 <= displayTime /\
      (time <= inject_Z displayTime)%Q /\
      ((time <= 0)%Q -> displayTime = 0) /\
      ((0 < time)%Q -> (inject_Z displayTime - 1 < time)%Q) /\
      (snd (GameHUD.updateTime time) = 0xff4444 <-> (time <= 10)%Q).
Proof.
  intros time. exists (Z.max 0 (Qceiling time)).
  unfold GameHUD.updateTime. cbv zeta. cbn [fst snd].
  pose proof (Qle_ceiling time) as Hup.
  pose proof (Qceiling_lt time) as Hlow.
  split; [reflexivity |]. split; [lia |].
  split.
  { eapply Qle_trans; [exact Hup |]. rewrite <- Zle_Qle. lia. }
  split.
  { intros Hneg.
    assert (Hc : Qceiling time <= 0).
    { rewrite <- (Qceiling_Z 0). apply Qceiling_resp_le. exact Hneg. }
    lia. }
  split.
  { intros Hpos.
    assert (Hc : 0 <= Qceiling time).
    { rewrite Zle_Qle. apply Qlt_le_weak. eapply Qlt_le_trans; [exact Hpos | exact Hup]. }
    rewrite Z.max_r by lia. unfold Zminus in Hlow. rewrite inject_Z_plus in Hlow.
    exact Hlow. }
  destruct (Z.leb_spec (Z.max 0 (Qceiling time)) 10) as [Hle | Hgt].
  - split; [intros _ | reflexivity].
    eapply Qle_trans; [exact Hup |].
    change 10%Q with (inject_Z 10). rewrite <- Zle_Qle. lia.
  - split; [discriminate |].
    intros Hten. exfalso.
    assert (Hc : Qceiling time <= 10).
    { rewrite <- (Qceiling_Z 10). apply Qceiling_resp_le. exact Hten. }
    lia.
Qed.

Lemma updateTime_text_witness :
  exists displayTime : Z,
    fst (GameHUD.updateTime (60 - 61)) = toString displayTime /\
    displayTime = 0 /\
    snd (GameHUD.updateTime (60 - 61)) = 0xff4444.
Proof.
  destruct (updateTime_text (60 - 61)) as [d [Htext [_ [_ [Hzero [_ Hred]]]]]].
  exists d. split; [exact Htext |].
  split.
  - apply Hzero. unfold Qle. simpl. lia.
  - apply Hred. unfold Qle. simpl. lia.
Defined.

Lemma LEVELS_id (j : Z) (cfg : LevelConfig) :
  item LEVELS j = Some cfg -> id cfg = j + 1.
Proof.
  intros H. destruct (item_some_nth LEVELS j cfg H) as [Hj Hn].
  assert (Hlt : (Z.to_nat j < List.length LEVELS)%nat)
    by (apply nth_error_Some; congruence).
  cbn [List.length LEVELS] in Hlt.
  assert (Hcase : j = 0 \/ j = 1 \/ j = 2 \/ j = 3 \/ j = 4) by lia.
  destruct Hcase as [-> | [-> | [-> | [-> | ->]]]];
    cbn in Hn; injection Hn as <-; reflexivity.
Qed.

(** X20. The result screen and [nextLevel] agree.  On a well-formed
    controller, the level-complete screen shown for the current level
    offers a NEXT LEVEL button exactly when [nextLevel] starts a level;
    on the last level the button is missing, where [nextLevel] would only
    return to the menu.  The MENU button is always there. *)
Theorem showLevelComplete_next :
  forall (g : GameManager) (cfg : LevelConfig),
    0 <= currentLevel g < LEVELS_length ->
    getCurrentLevelConfig g = Some cfg ->
    (In ClickNextLevel (map onClick (ResultScreen.showLevelComplete cfg)) <->
     exists g' evs, nextLevel g = Some (tt, g', evs) /\ state g' = PLAYING) /\
    (~ In ClickNextLevel (map onClick (ResultScreen.showLevelComplete cfg)) <->
     nextLevel g = Some (tt, set_state MENU g, [StateChanged MENU])) /\
    In ClickMenu (map onClick (ResultScreen.showLevelComplete cfg)).
Proof.
  intros g cfg Hcur Hcfg.
  unfold getCurrentLevelConfig in Hcfg. rewrite (out_of_range_false _ Hcur) in Hcfg.
  pose proof (LEVELS_id _ _ Hcfg) as Hid.
  unfold ResultScreen.showLevelComplete. rewrite Hid.
  unfold nextLevel, bind, get.
  destruct (Z.ltb_spec (currentLevel g + 1) LEVELS_length) as [Hnext | Hlast].
  - destruct (Z.ltb_spec (currentLevel g) (LEVELS_length - 1)) as [_ | Hno]; [| lia].
    destruct (startLevel_returns (currentLevel g + 1) g) as [j [c [_ [_ Hrun]]]].
    rewrite Hrun. cbn.
    split; [| split].
    + split; [intros _ | intros _; left; reflexivity].
      eexists. eexists. split; reflexivity.
    + split; [intros H; exfalso; apply H; left; reflexivity | intros H; discriminate H].
    + right. left. reflexivity.
  - destruct (Z.ltb_spec (currentLevel g) (LEVELS_length - 1)) as [Hno | _]; [lia |].
    cbn. split; [| split].
    + split; [intros [H | []]; discriminate H |].
      intros [g' [evs [H Hst]]]. injection H as <- <-. discriminate Hst.
    + split; [reflexivity | intros _ [H | []]; discriminate H].
    + left. reflexivity.
Qed.

Lemma showLevelComplete_next_witness :
  In ClickNextLevel
    (map onClick (ResultScreen.showLevelComplete
                    (mkLevel 4 "Expert" "Moving targets" 5 (3 # 2) 200 60 true))) /\
  ~ In ClickNextLevel
      (map onClick (ResultScreen.showLevelComplete
                      (mkLevel 5 "Master" "Ultimate challenge" 7 (5 # 2) 300 90 true))).
Proof.
  split.
  - apply (proj1 (showLevelComplete_next
                    (mkGameManager LEVEL_COMPLETE 3 200 12 DEFAULT_SETTINGS [0; 0; 0; 200; 0])
                    (mkLevel 4 "Expert" "Moving targets" 5 (3 # 2) 200 60 true)
                    ltac:(rewrite LEVELS_length_eq; simpl; lia) eq_refl)).
    eexists. eexists. split; reflexivity.
  - apply (proj1 (proj2 (showLevelComplete_next
                    (mkGameManager LEVEL_COMPLETE 4 300 12 DEFAULT_SETTINGS [0; 0; 0; 0; 300])
                    (mkLevel 5 "Master" "Ultimate challenge" 7 (5 # 2) 300 90 true)
                    ltac:(rewrite LEVELS_length_eq; simpl; lia) eq_refl))).
    reflexivity.
Defined.

Lemma enumerate_nth {A : Type} (l : list A) (k i : nat) (a : A) :
  In (i, a) (enumerate k l) -> (k <= i)%nat /\ nth_error l (i - k) = Some a.
Proof.
  revert k. induction l as [| hd tl IH]; intros k H; [contradiction |].
  destruct H as [H | H].
  - injection H as <- <-. split; [lia |]. rewrite Nat.sub_diag. reflexivity.
  - destruct (IH (S k) H) as [Hle Hn]. split; [lia |].
    replace (i - k)%nat with (S (i - S k)) by lia. exact Hn.
Qed.

Lemma enumerate_length {A : Type} (l : list A) (k : nat) :
  List.length (enumerate k l) = List.length l.
Proof.
  revert k. induction l as [| hd tl IH]; intros k; [reflexivity |].
  cbn. rewrite IH. reflexivity.
Qed.

(** X21. The level-select menu.  It has one level button per level of the
    catalog (besides BACK), and every level button starts the level it is labelled with: its
    index is a valid one (so [startLevel] does not coerce it), the label
    carries the id and the name of that level, and after the click the
    controller is Playing that level, from whatever state. *)
Theorem showLevelSelect_buttons :
  List.length MenuUI.showLevelSelect = List.length LEVELS /\
  forall b : Button,
    In b MenuUI.showLevelSelect ->
    exists index cfg,
      onClick b = ClickLevel index /\
      0 <= index < LEVELS_length /\
      item LEVELS index = Some cfg /\
      label b = append (toString (id cfg)) (append ". " (name cfg)) /\
      forall g : GameManager,
        exists g',
          exec (startLevel index) g = Some g' /\
          state g' = PLAYING /\
          currentLevel g' = index /\
          getCurrentLevelConfig g' = Some cfg.
Proof.
  split.
  - unfold MenuUI.showLevelSelect. rewrite length_map, enumerate_length. reflexivity.
  - intros b Hb. unfold MenuUI.showLevelSelect in Hb.
    apply in_map_iff in Hb. destruct Hb as [[i cfg] [<- Hin]].
    destruct (enumerate_nth LEVELS 0 i cfg Hin) as [_ Hn].
    rewrite Nat.sub_0_r in Hn.
    assert (Hlt : (i < List.length LEVELS)%nat) by (apply nth_error_Some; congruence).
    assert (Hrange : 0 <= Z.of_nat i < LEVELS_length) by (unfold LEVELS_length; lia).
    assert (Hitem : item LEVELS (Z.of_nat i) = Some cfg).
    { unfold item. destruct (Z.ltb_spec (Z.of_nat i) 0); [lia |].
      rewrite Nat2Z.id. exact Hn. }
    exists (Z.of_nat i), cfg. cbn [onClick label fst snd].
    split; [reflexivity |]. split; [exact Hrange |]. split; [exact Hitem |].
    split; [reflexivity |].
    intros g. eexists. unfold exec.
    rewrite (startLevel_in_range (Z.of_nat i) g cfg Hrange Hitem).
    split; [reflexivity |]. split; [reflexivity |]. split; [reflexivity |].
    unfold getCurrentLevelConfig. cbn [currentLevel].
    rewrite (out_of_range_false _ Hrange). exact Hitem.
Qed.

Lemma showLevelSelect_buttons_witness :
  exists index cfg,
    onClick (mkButton "3. Advanced" (ClickLevel 2)) = ClickLevel index /\
    item LEVELS index = Some cfg /\
    name cfg = "Advanced"%string.
Proof.
  destruct (proj2 showLevelSelect_buttons (mkButton "3. Advanced" (ClickLevel 2)))
    as [index [cfg [Hclick [_ [Hitem [Hlabel _]]]]]].
  - vm_compute. right. right. left. reflexivity.
  - exists index, cfg. split; [exact Hclick |]. split; [exact Hitem |].
    cbn [onClick] in Hclick. injection Hclick as <-.
    vm_compute in Hitem. injection Hitem as <-. reflexivity.
Defined.

Lemma nth_error_map_enumerate {A B : Type} (f : nat * A -> B) (l : list A) (k i : nat) :
  nth_error (map f (enumerate k l)) i
  = option_map (fun a => f ((k + i)%nat, a)) (nth_error l i).
Proof.
  revert k i. induction l as [| hd tl IH]; intros k i.
  - destruct i; reflexivity.
  - destruct i; cbn.
    + rewrite Nat.add_0_r. reflexivity.
    + rewrite IH. replace (S k + i)%nat with (k + S i)%nat by lia. reflexivity.
Qed.

(** X22. Hover highlighting.  [updateHover] keeps the buttons of the panel
    and marks exactly the button the ray points at: afterwards a button is
    hovered if and only if it is that button (none when the ray hits no
    button); and when every background showed the hover state before, it
    does so afterwards: the hovered button has the hover colour and all
    others the normal one. *)
Theorem updateHover_spec :
  forall (hoveredButton : option nat) (buttons : list Hover),
    List.length (updateHover hoveredButton buttons) = List.length buttons /\
    (forall i b',
       nth_error (updateHover hoveredButton buttons) i = Some b' ->
       hovered b' = match hoveredButton with
                    | Some h => Nat.eqb i h
                    | None => false
                    end) /\
    (Forall coloured buttons -> Forall coloured (updateHover hoveredButton buttons)).
Proof.
  intros h buttons. unfold updateHover.
  split; [rewrite length_map; apply enumerate_length |].
  split.
  - intros i b' Hn. rewrite nth_error_map_enumerate in Hn.
    destruct (nth_error buttons i) as [b |]; [| discriminate].
    cbn [option_map fst snd Nat.add] in Hn. injection Hn as <-.
    set (isHovered := match h with Some k => Nat.eqb i k | None => false end).
    destruct (Bool.eqb isHovered (hovered b)) eqn:E; [| reflexivity].
    apply eqb_prop in E. symmetry. exact E.
  - intros Hall. apply Forall_forall. intros b' Hin.
    apply in_map_iff in Hin. destruct Hin as [[i b] [<- Hin]].
    apply enumerate_In in Hin. rewrite Forall_forall in Hall.
    cbn [fst snd].
    destruct (Bool.eqb _ (hovered b)); [apply Hall; exact Hin |].
    unfold coloured. reflexivity.
Qed.

Lemma updateHover_spec_witness :
  Forall coloured
    (updateHover (Some 1%nat)
       [mkHover true HOVER_COLOR; mkHover false SECONDARY_COLOR;
        mkHover false SECONDARY_COLOR]) /\
  updateHover (Some 1%nat)
    [mkHover true HOVER_COLOR; mkHover false SECONDARY_COLOR;
     mkHover false SECONDARY_COLOR]
  = [mkHover false SECONDARY_COLOR; mkHover true HOVER_COLOR;
     mkHover false SECONDARY_COLOR].
Proof.
  split; [| reflexivity].
  apply (updateHover_spec (Some 1%nat)
           [mkHover true HOVER_COLOR; mkHover false SECONDARY_COLOR;
            mkHover false SECONDARY_COLOR]).
  repeat constructor.
Defined.
